(** * Table recovery and card resolution of [src/App.tsx]

    A shallow embedding of the two pieces of logic in [App.tsx] that are
    independent of rendering:

    - the loop of [fetchData] that splits the vertically stacked sheet
      into four tables (lines 97-157), and
    - the two derived views [dashboardRows] (lines 176-189) and
      [mobileCards] (lines 192-222).

    Conventions of the model.

    - Cell text is ASCII: a JavaScript string is a [string], one [ascii]
      per code unit. [trim], [toUpperCase] and [parseInt] are written out
      for that alphabet; characters above 127 are left alone by
      [toUpperCase] and are not white space.
    - A row object built by the parser ([const obj: any = {}]) is a finite
      map from property names to strings; reading a property that was
      never written gives [None], JavaScript's [undefined].
    - A JavaScript Number is [NaN] or an exact integer [Num z]; the
      program only produces Numbers through [parseInt] and one
      subtraction, and doubles agree with the integers up to 2^53.
    - A [TypeError] raised by calling a method on [undefined] is the
      [Throw] branch of [completion]. *)

From stdpp Require Import gmap strings list fin_maps sorting.
From Stdlib Require Import Ascii String ZArith Lia.

Local Open Scope string_scope.
Local Open Scope Z_scope.

Set Warnings "-clear-no-such-hyp".

(** ** JavaScript primitives used by the program *)

Module JS.

(** [WhiteSpace] and [LineTerminator] code points below 128: TAB, LF, VT,
    FF, CR and SPACE. *)
Definition isWhiteSpace (c : ascii) : bool :=
  let n := nat_of_ascii c in
  ((9 <=? n) && (n <=? 13) || (n =? 32))%nat.

(** [String.prototype.trimStart]. *)
Fixpoint trimStart (s : string) : string :=
  match s with
  | EmptyString => EmptyString
  | String c r => if isWhiteSpace c then trimStart r else s
  end.

(** [String.prototype.trimEnd]. *)
Fixpoint trimEnd (s : string) : string :=
  match s with
  | EmptyString => EmptyString
  | String c r =>
      match trimEnd r with
      | EmptyString => if isWhiteSpace c then EmptyString else String c EmptyString
      | r' => String c r'
      end
  end.

(** [String.prototype.trim]. *)
Definition trim (s : string) : string := trimEnd (trimStart s).

Definition upperChar (c : ascii) : ascii :=
  let n := nat_of_ascii c in
  if ((97 <=? n) && (n <=? 122))%nat then ascii_of_nat (n - 32) else c.

Definition lowerChar (c : ascii) : ascii :=
  let n := nat_of_ascii c in
  if ((65 <=? n) && (n <=? 90))%nat then ascii_of_nat (n + 32) else c.

Fixpoint mapChars (f : ascii -> ascii) (s : string) : string :=
  match s with
  | EmptyString => EmptyString
  | String c r => String (f c) (mapChars f r)
  end.

(** [String.prototype.toUpperCase]. *)
Definition toUpperCase (s : string) : string := mapChars upperChar s.

(** Truthiness of a string value: only the empty string is falsy. *)
Definition truthy (s : string) : bool :=
  match s with EmptyString => false | _ => true end.

(** Truthiness of a possibly undefined string: [undefined] is falsy. *)
Definition truthyOpt (v : option string) : bool :=
  match v with Some s => truthy s | None => false end.

(** [v || d] for a possibly undefined string [v] and a string [d]. *)
Definition orElse (v : option string) (d : string) : string :=
  match v with
  | Some s => if truthy s then s else d
  | None => d
  end.

(** Numbers. *)
Inductive Number : Type :=
  | NaN
  | Num (z : Z).

#[global] Instance Number_eq_dec : EqDecision Number.
Proof. solve_decision. Defined.

(** [a - b] on Numbers. *)
Definition sub (a b : Number) : Number :=
  match a, b with
  | Num x, Num y => Num (x - y)
  | _, _ => NaN
  end.

Definition isDigit (c : ascii) : bool :=
  let n := nat_of_ascii c in ((48 <=? n) && (n <=? 57))%nat.

Definition digitValue (c : ascii) : Z := Z.of_nat (nat_of_ascii c) - 48.

(** The longest prefix of decimal digits, read left to right; [None] when
    the prefix is empty. [acc] is the value of the digits read so far. *)
Fixpoint readDigits (acc : option Z) (s : string) : option Z :=
  match s with
  | String c r =>
      if isDigit c
      then readDigits (Some (10 * default 0 acc + digitValue c)) r
      else acc
  | EmptyString => acc
  end.

(** [parseInt(s, 10)]: skip leading white space, take an optional sign,
    read the longest run of decimal digits; [NaN] when there is none.
    With radix 10 given no [0x] prefix is recognised. *)
Definition parseInt10 (s : string) : Number :=
  let s1 := trimStart s in
  let '(sign, s2) :=
    match s1 with
    | String "-" r => (-1, r)
    | String "+" r => (1, r)
    | _ => (1, s1)
    end in
  match readDigits None s2 with
  | Some z => Num (sign * z)
  | None => NaN
  end.

(** The outcome of evaluating code that may raise. *)
Inductive completion (A : Type) : Type :=
  | Normal (a : A)
  | Throw (msg : string).
Arguments Normal {A} a.
Arguments Throw {A} msg.

Definition bind {A B} (m : completion A) (k : A -> completion B) : completion B :=
  match m with
  | Normal a => k a
  | Throw e => Throw e
  end.

(** [Array.prototype.filter] with a callback that may raise: the rows are
    visited left to right and the first exception aborts the call. *)
Fixpoint filterE {A} (p : A -> completion bool) (l : list A) : completion (list A) :=
  match l with
  | [] => Normal []
  | x :: r =>
      bind (p x) (fun keep =>
      bind (filterE p r) (fun r' =>
      Normal (if keep then x :: r' else r')))
  end.

(** [Array.prototype.sort(cmp)]. The comparator's result [v] is read as
    ECMAScript's SortCompare does: [NaN] counts as [+0], and [x] is put
    after [y] only when [v > 0]. ECMAScript requires the sort to be
    stable, so for a consistent comparator every engine returns the same
    array as this insertion sort. *)
Section Sort.
Context {A : Type} (cmp : A -> A -> Number).

Definition sortCompare (x y : A) : Z :=
  match cmp x y with
  | NaN => 0
  | Num v => v
  end.

Fixpoint sortInsert (x : A) (l : list A) : list A :=
  match l with
  | [] => [x]
  | y :: r => if 0 <? sortCompare x y then y :: sortInsert x r else x :: l
  end.

Fixpoint sort (l : list A) : list A :=
  match l with
  | [] => []
  | x :: r => sortInsert x (sort r)
  end.

End Sort.

(** An object with string-valued own properties. *)
Abbreviation Object := (gmap string string).

(** [obj[key] = value] on an object created by [{}]. The one key that
    does not become an own property is ["__proto__"]: it reaches the
    setter inherited from [Object.prototype], which ignores a string. *)
Definition setProp (obj : Object) (key value : string) : Object :=
  if decide (key = "__proto__") then obj else <[key := value]> obj.

(** [a === b] on possibly undefined strings. *)
Definition strictEq (a b : option string) : bool := bool_decide (a = b).

End JS.

Import JS.

(** ** The four tables *)

(** The four values [currentTable] takes besides [null]. *)
Inductive TableName : Type :=
  | Partner_Master
  | Card_UI_Config
  | Product_Detail_Config
  | Display_Rules.

#[global] Instance TableName_eq_dec : EqDecision TableName.
Proof. solve_decision. Defined.

(** [ParsedData]. The arrays are filled with the objects the parser
    builds, so a record has exactly the properties its header row named;
    the field lists of [PartnerMaster], [CardUIConfig],
    [ProductDetailConfig] and [DisplayRules] are not enforced. *)
Record ParsedData : Type := mkParsedData {
  partnerMaster : list Object;
  cardUIConfig : list Object;
  productDetailConfig : list Object;
  displayRules : list Object
}.

(** ** The table-splitting loop of [fetchData] *)

(** The variables the loop updates. *)
Record LoopState : Type := mkLoopState {
  currentTable : option TableName;
  currentHeaders : list string;
  tables : ParsedData
}.

Definition emptyTables : ParsedData := mkParsedData [] [] [] [].

Definition initialState : LoopState := mkLoopState None [] emptyTables.

(** [row.length === 0 || row.every(cell => !cell || !cell.trim())]. *)
Definition isBlankRow (row : list string) : bool :=
  (List.length row =? 0)%nat
  || forallb (fun cell => negb (truthy cell) || negb (truthy (trim cell))) row.

(** [row.includes(name)]. *)
Definition includes (row : list string) (name : string) : bool :=
  bool_decide (name ∈ row).

(** [row[0]?.trim()]. *)
Definition firstCellOf (row : list string) : option string :=
  trim <$> row !! 0%nat.

(** The [if ... else if ...] chain of lines 115-131, in the order of the
    source; [None] when no branch is taken. *)
Definition detectHeader (row : list string) : option TableName :=
  let firstCell := firstCellOf row in
  if strictEq firstCell (Some "Partner_ID") && includes row "Partner_Name"
  then Some Partner_Master
  else if strictEq firstCell (Some "Config_ID") && includes row "Card_Title"
  then Some Card_UI_Config
  else if strictEq firstCell (Some "Config_ID") && includes row "Hero_Banner_URL"
  then Some Product_Detail_Config
  else if strictEq firstCell (Some "Rule_ID") && includes row "User_Segment"
  then Some Display_Rules
  else None.

(** [row[index] ? row[index].trim() : ''] *)
Definition cellValue (row : list string) (index : nat) : string :=
  match row !! index with
  | Some cell => if truthy cell then trim cell else ""
  | None => ""
  end.

(** [currentHeaders.forEach((header, index) => ...)], from position
    [index] on. *)
Fixpoint forEachHeader (headers : list string) (index : nat)
    (row : list string) (obj : Object) : Object :=
  match headers with
  | [] => obj
  | header :: rest =>
      forEachHeader rest (S index) row
        (if truthy header then setProp obj header (cellValue row index) else obj)
  end.

(** The object built for a data row (lines 135-140). *)
Definition buildRecord (headers row : list string) : Object :=
  forEachHeader headers 0 row ∅.

(** The [switch] of lines 142-155. *)
Definition pushRecord (t : TableName) (obj : Object) (d : ParsedData) : ParsedData :=
  match t with
  | Partner_Master =>
      mkParsedData (partnerMaster d ++ [obj]) (cardUIConfig d)
                   (productDetailConfig d) (displayRules d)
  | Card_UI_Config =>
      mkParsedData (partnerMaster d) (cardUIConfig d ++ [obj])
                   (productDetailConfig d) (displayRules d)
  | Product_Detail_Config =>
      mkParsedData (partnerMaster d) (cardUIConfig d)
                   (productDetailConfig d ++ [obj]) (displayRules d)
  | Display_Rules =>
      mkParsedData (partnerMaster d) (cardUIConfig d)
                   (productDetailConfig d) (displayRules d ++ [obj])
  end.

(** One iteration of [for (const row of rows)]. *)
Definition processRow (st : LoopState) (row : list string) : LoopState :=
  if isBlankRow row then
    mkLoopState None (currentHeaders st) (tables st)
  else
    match detectHeader row with
    | Some t => mkLoopState (Some t) (trim <$> row) (tables st)
    | None =>
        match currentTable st with
        | Some t =>
            mkLoopState (currentTable st) (currentHeaders st)
              (pushRecord t (buildRecord (currentHeaders st) row) (tables st))
        | None => st
        end
    end.

(** The loop from a given state, and the whole of lines 97-164: [rows] is
    [parsed.data], the result is the value passed to [setData]. *)
Definition processRows (st : LoopState) (rows : list (list string)) : LoopState :=
  foldl processRow st rows.

Definition fetchData (rows : list (list string)) : ParsedData :=
  tables (processRows initialState rows).

(** ** The derived views *)

(** [o?.key] for a possibly undefined object. *)
Definition optProp (o : option Object) (key : string) : option string :=
  o ≫= (.!! key).

(** [data.partnerMaster.find(p => p.Partner_ID === config.Partner_ID)] *)
Definition findPartner (data : ParsedData) (config : Object) : option Object :=
  List.find (fun p => strictEq (p !! "Partner_ID") (config !! "Partner_ID"))
            (partnerMaster data).

(** [data.displayRules.find(r => r.Config_ID === config.Config_ID)] *)
Definition findRule (data : ParsedData) (config : Object) : option Object :=
  List.find (fun r => strictEq (r !! "Config_ID") (config !! "Config_ID"))
            (displayRules data).

(** The object literal of lines 181-187: the spread of [config], then the
    four joined properties. *)
Definition dashboardRow (data : ParsedData) (config : Object) : Object :=
  let partner := findPartner data config in
  let rule := findRule data config in
  <["User_Segment" := orElse (optProp rule "User_Segment") "All"]>
  (<["Priority" := orElse (optProp rule "Priority") "0"]>
  (<["Status" := orElse (optProp partner "Status") "INACTIVE"]>
  (<["Partner_Name" := orElse (optProp partner "Partner_Name") "Unknown"]>
   config))).

Definition dashboardRows (data : option ParsedData) : list Object :=
  match data with
  | None => []
  | Some data => dashboardRow data <$> cardUIConfig data
  end.

(** [p.Status.toUpperCase() === 'ACTIVE']; the method call raises a
    [TypeError] when the record has no [Status] property. *)
Definition isActivePartner (p : Object) : completion bool :=
  match p !! "Status" with
  | Some status => Normal (bool_decide (toUpperCase status = "ACTIVE"))
  | None => Throw "TypeError: Cannot read properties of undefined"
  end.

(** The callback of the second [filter] (lines 203-207). *)
Definition matchesSegment (data : ParsedData) (userSegment : string)
    (c : Object) : bool :=
  let rules :=
    List.filter (fun r => strictEq (r !! "Config_ID") (c !! "Config_ID"))
                (displayRules data) in
  if (List.length rules =? 0)%nat then true
  else existsb (fun r => strictEq (r !! "User_Segment") (Some "All")
                         || strictEq (r !! "User_Segment") (Some userSegment))
               rules.

(** [parseInt(rule?.Priority || '0', 10)] for the first rule of a card. *)
Definition priorityOf (data : ParsedData) (c : Object) : Number :=
  parseInt10 (orElse (optProp (findRule data c) "Priority") "0").

(** The comparator of lines 210-216: [prioB - prioA]. *)
Definition byPriority (data : ParsedData) (a b : Object) : Number :=
  sub (priorityOf data b) (priorityOf data a).

Definition mobileCards (data : option ParsedData) (userSegment : string)
    : completion (list Object) :=
  match data with
  | None => Normal []
  | Some data =>
      bind (filterE isActivePartner (partnerMaster data)) (fun active =>
      let activePartners : gset (option string) :=
        list_to_set ((.!! "Partner_ID") <$> active) in
      let cards :=
        List.filter (fun c => bool_decide (c !! "Partner_ID" ∈ activePartners))
                    (cardUIConfig data) in
      let cards := List.filter (matchesSegment data userSegment) cards in
      Normal (sort (byPriority data) cards))
  end.

(** ** Concrete grids *)

(** The sample grid of the specification: a partner table and a card
    table whose header names no [Partner_ID] column. *)
Definition sampleGrid : list (list string) :=
  [ ["Partner_ID"; "Partner_Name"; "Bank_Code"; "Category"; "Status"];
    ["P1"; "Acme Bank"; "ACM"; "Card"; "Active"];
    [""];
    ["Config_ID"; "Card_Title"; "Card_Subtitle"; "Logo_URL"; "Badge_Text";
     "Bg_Color"; "Text_Color"; "Benefit_1"; "Benefit_2"; "Benefit_3";
     "CTA_Label_Card"];
    ["C1"; "Acme Gold"; "Cashback 5%"; ""; ""; ""; ""; "Free shipping"; "";
     ""; "Open now"] ].

(** The same two tables with a [Partner_ID] column in the card table. *)
Definition linkedGrid : list (list string) :=
  [ ["Partner_ID"; "Partner_Name"; "Bank_Code"; "Category"; "Status"];
    ["P1"; "Acme Bank"; "ACM"; "Card"; "Active"];
    [""];
    ["Config_ID"; "Partner_ID"; "Card_Title"; "Card_Subtitle"; "Benefit_1";
     "CTA_Label_Card"];
    ["C1"; "P1"; "Acme Gold"; "Cashback 5%"; "Free shipping"; "Open now"] ].

(** ** Notions used to state the properties *)

(** A cell that is empty or holds white space only, and a row of such
    cells: the words of the specification for a separator row. *)
Definition whitespaceOnly (cell : string) : Prop :=
  Forall (λ c, isWhiteSpace c = true) (list_ascii_of_string cell).

Definition blankRow (row : list string) : Prop :=
  Forall (λ cell, cell = "" ∨ whitespaceOnly cell) row.

(** The last position at which [k] occurs in [headers]. *)
Fixpoint lastIndexOf (k : string) (headers : list string) : option nat :=
  match headers with
  | [] => None
  | h :: rest =>
      match lastIndexOf k rest with
      | Some i => Some (S i)
      | None => if decide (h = k) then Some 0%nat else None
      end
  end.

(** [r] is the first element of [l], in the order of [l], for which [P]
    holds, or [None] when [P] holds for no element. *)
Inductive FirstMatch {A : Type} (P : A → Prop) : list A → option A → Prop :=
  | FirstMatch_none (l : list A) :
      Forall (λ x, ¬ P x) l → FirstMatch P l None
  | FirstMatch_some (pre : list A) (x : A) (post : list A) :
      Forall (λ x, ¬ P x) pre → P x → FirstMatch P (pre ++ x :: post) (Some x).

(** The value a stable sort by descending [key] must return for [l]: a
    rearrangement of [l] in which keys never increase and in which the
    elements of each single key stand in the order they have in [l]. *)
Definition StableDescending {A : Type} (key : A → Z) (l l' : list A) : Prop :=
  l' ≡ₚ l
  ∧ StronglySorted (λ a b, key b ≤ key a) l'
  ∧ ∀ k, filter (λ a, key a = k) l' = filter (λ a, key a = k) l.

(** Equality of two strings up to the case of the letters [a]-[z]. *)
Fixpoint eqIgnoreCase (s t : string) : bool :=
  match s, t with
  | EmptyString, EmptyString => true
  | String a s', String b t' =>
      bool_decide (lowerChar a = lowerChar b) && eqIgnoreCase s' t'
  | _, _ => false
  end.

(** The text of a joined column: the property [key] of the matched
    record when there is a match and that text is not empty, [dflt]
    otherwise. *)
Definition joined (o : option Object) (key dflt : string) : string :=
  match o with
  | Some obj =>
      match obj !! key with
      | Some v => if decide (v = "") then dflt else v
      | None => dflt
      end
  | None => dflt
  end.



(** One partner whose name cell is empty, and one card of that partner. *)
Definition unnamedPartnerData : ParsedData :=
  mkParsedData
    [ {[ "Partner_ID" := "P1"; "Partner_Name" := ""; "Status" := "ACTIVE" ]} ]
    [ {[ "Config_ID" := "C1"; "Partner_ID" := "P1"; "Card_Title" := "Gold" ]} ]
    []
    [].

(** Every partner record has a [Status] property, as the type
    [PartnerMaster] declares; without it [p.Status.toUpperCase()] raises. *)
Definition partnersHaveStatus (data : ParsedData) : Prop :=
  Forall (λ p, is_Some (p !! "Status")) (partnerMaster data).

(** Some partner record has the card's [Partner_ID] and a status that
    reads [active] without regard to case. *)
Definition hasActivePartner (data : ParsedData) (c : Object) : Prop :=
  ∃ p status, p ∈ partnerMaster data
    ∧ p !! "Partner_ID" = c !! "Partner_ID"
    ∧ p !! "Status" = Some status
    ∧ eqIgnoreCase status "active" = true.

(** No rule record has the card's [Config_ID], or one that has it names
    the segment ["All"] or the requested segment, letter for letter. *)
Definition segmentEligible (data : ParsedData) (segment : string) (c : Object) : Prop :=
  (∀ r, r ∈ displayRules data → r !! "Config_ID" ≠ c !! "Config_ID")
  ∨ ∃ r, r ∈ displayRules data
      ∧ r !! "Config_ID" = c !! "Config_ID"
      ∧ (r !! "User_Segment" = Some "All" ∨ r !! "User_Segment" = Some segment).

(** The two filters of [mobileCards] on their own, for records that all
    have a status. *)
Definition activeStatus (p : Object) : bool :=
  match p !! "Status" with
  | Some status => bool_decide (toUpperCase status = "ACTIVE")
  | None => false
  end.

Definition activeGate (data : ParsedData) (c : Object) : bool :=
  bool_decide (c !! "Partner_ID" ∈
    (list_to_set ((.!! "Partner_ID") <$> List.filter activeStatus (partnerMaster data))
       : gset (option string))).

(** The cards that pass both filters, in the order of the card table. *)
Definition filteredCards (data : ParsedData) (segment : string) : list Object :=
  List.filter (matchesSegment data segment)
              (List.filter (activeGate data) (cardUIConfig data)).

(** The priority of a card as an integer: the integer that the priority
    text of its first rule stands for, and [0] when the card has no rule
    or the text stands for no integer. *)
Definition priorityValue (data : ParsedData) (c : Object) : Z :=
  match priorityOf data c with
  | Num z => z
  | NaN => 0
  end.

(** Concrete tables for the card list. *)
Definition activePartner : Object :=
  {[ "Partner_ID" := "P1"; "Partner_Name" := "Acme Bank"; "Status" := "Active" ]}.

Definition card (id : string) : Object :=
  {[ "Config_ID" := id; "Partner_ID" := "P1"; "Card_Title" := id ]}.

Definition rule (id config segment priority : string) : Object :=
  {[ "Rule_ID" := id; "Config_ID" := config; "User_Segment" := segment;
     "Priority" := priority ]}.

(** Cards [A], [B], [C] with priorities 5, 5 and 10. *)
Definition tiedPriorityData : ParsedData :=
  mkParsedData [activePartner] [card "A"; card "B"; card "C"] []
    [rule "R1" "A" "All" "5"; rule "R2" "B" "All" "5"; rule "R3" "C" "All" "10"].

(** Card [A] whose priority cell reads [high], then card [B] with
    priority 10. *)
Definition textPriorityData : ParsedData :=
  mkParsedData [activePartner] [card "A"; card "B"] []
    [rule "R1" "A" "All" "high"; rule "R2" "B" "All" "10"].

(** Card [A] with the priority cell [high] between cards of priority 5
    and 10. *)
Definition mixedPriorityData : ParsedData :=
  mkParsedData [activePartner] [card "B"; card "A"; card "C"] []
    [rule "R1" "A" "All" "high"; rule "R2" "B" "All" "5";
     rule "R3" "C" "All" "10"].

(** Card [C1] with the single rule for segment [New User]. *)
Definition newUserData : ParsedData :=
  mkParsedData [activePartner] [card "C1"] [] [rule "R1" "C1" "New User" "1"].

(** ** The parts of the rendering that compute *)

(** The key column and the signature column that the header chain of
    lines 115-131 tests for each table. *)
Definition keyColumn (t : TableName) : string :=
  match t with
  | Partner_Master => "Partner_ID"
  | Card_UI_Config => "Config_ID"
  | Product_Detail_Config => "Config_ID"
  | Display_Rules => "Rule_ID"
  end.

Definition signatureColumn (t : TableName) : string :=
  match t with
  | Partner_Master => "Partner_Name"
  | Card_UI_Config => "Card_Title"
  | Product_Detail_Config => "Hero_Banner_URL"
  | Display_Rules => "User_Segment"
  end.

(** The array that the [switch] of lines 142-155 pushes to for [t]. *)
Definition tableOf (t : TableName) (d : ParsedData) : list Object :=
  match t with
  | Partner_Master => partnerMaster d
  | Card_UI_Config => cardUIConfig d
  | Product_Detail_Config => productDetailConfig d
  | Display_Rules => displayRules d
  end.

Definition totalRecords (d : ParsedData) : nat :=
  (List.length (partnerMaster d) + List.length (cardUIConfig d)
   + List.length (productDetailConfig d) + List.length (displayRules d))%nat.

(** A row that is neither a separator nor a header row. *)
Definition isDataRow (row : list string) : bool :=
  negb (isBlankRow row) && bool_decide (detectHeader row = None).

(** [row.Status.toUpperCase() === 'ACTIVE'] of the status badge
    (line 361). *)
Definition statusBadgeActive (row : Object) : completion bool :=
  match row !! "Status" with
  | Some status => Normal (bool_decide (toUpperCase status = "ACTIVE"))
  | None => Throw "TypeError: Cannot read properties of undefined"
  end.

(** [[card.Benefit_1, card.Benefit_2, card.Benefit_3].filter(Boolean)]
    (lines 461 and 529). *)
Definition benefits (c : Object) : list (option string) :=
  List.filter truthyOpt [c !! "Benefit_1"; c !! "Benefit_2"; c !! "Benefit_3"].

(** No two partner records have the same [Partner_ID]. *)
Definition uniquePartnerIds (data : ParsedData) : Prop :=
  NoDup ((.!! "Partner_ID") <$> partnerMaster data).

(** After leading white space and one optional sign the text goes on
    with a decimal digit. *)
Definition startsWithNumber (text : string) : bool :=
  match trimStart text with
  | String c r =>
      if bool_decide (c = "-"%char ∨ c = "+"%char)
      then match r with String d _ => isDigit d | EmptyString => false end
      else isDigit c
  | EmptyString => false
  end.

(** ** The preview state and its handlers *)

(** A state variable typed [string | null] that is assigned a property
    of a record: [null], [undefined] or a string. *)
Inductive Value : Type :=
  | Null
  | Undefined
  | Str (s : string).

(** The value of reading a property. *)
Definition ofProp (v : option string) : Value :=
  match v with
  | Some s => Str s
  | None => Undefined
  end.

Definition truthyValue (v : Value) : bool :=
  match v with
  | Str s => truthy s
  | _ => false
  end.

(** [p === v] for a property [p] of a record and a state variable [v]. *)
Definition propEq (p : option string) (v : Value) : bool :=
  match v with
  | Str s => strictEq p (Some s)
  | Undefined => strictEq p None
  | Null => false
  end.

(** The values of [mobileScreen]. *)
Inductive MobileScreen : Type :=
  | Listing
  | Detail
  | Steps.

(** The four state variables of lines 75-80. *)
Record UIState : Type := mkUIState {
  selectedConfigId : Value;
  userSegment : string;
  mobileScreen : MobileScreen;
  activeCardId : Value
}.

Definition initialUI : UIState := mkUIState Null "All" Listing Null.

(** Lines 224-228. *)
Definition handlePreviewClick (configId : Value) (st : UIState) : UIState :=
  mkUIState configId (userSegment st) Listing Null.

(** Lines 230-233. *)
Definition handleCardClick (configId : Value) (st : UIState) : UIState :=
  mkUIState (selectedConfigId st) (userSegment st) Detail configId.

Definition setUserSegment (segment : string) (st : UIState) : UIState :=
  mkUIState (selectedConfigId st) segment (mobileScreen st) (activeCardId st).

Definition setMobileScreen (screen : MobileScreen) (st : UIState) : UIState :=
  mkUIState (selectedConfigId st) (userSegment st) screen (activeCardId st).

(** [data.cardUIConfig.find(c => c.Config_ID === activeCardId)] and
    [data.productDetailConfig.find(d => d.Config_ID === activeCardId)]
    (lines 485-486 and 567-568). *)
Definition findCard (data : ParsedData) (id : Value) : option Object :=
  List.find (λ c, propEq (c !! "Config_ID") id) (cardUIConfig data).

Definition findDetail (data : ParsedData) (id : Value) : option Object :=
  List.find (λ d, propEq (d !! "Config_ID") id) (productDetailConfig data).

(** What the content area of the phone shows (lines 418-623): the
    listing with the cards, the detail page, the message [Config not
    found], the steps page, the steps container without content (the
    [return null] of line 570), or none of the three screens. *)
Inductive MobileView : Type :=
  | ListingView (cards : list Object)
  | DetailView (c d : Object)
  | ConfigNotFound
  | StepsView (c d : Object)
  | StepsEmpty
  | NoScreen.

Definition mobileView (data : ParsedData) (cards : list Object)
    (st : UIState) : MobileView :=
  match mobileScreen st with
  | Listing => ListingView cards
  | Detail =>
      if truthyValue (activeCardId st) then
        match findCard data (activeCardId st), findDetail data (activeCardId st) with
        | Some c, Some d => DetailView c d
        | _, _ => ConfigNotFound
        end
      else NoScreen
  | Steps =>
      if truthyValue (activeCardId st) then
        match findCard data (activeCardId st), findDetail data (activeCardId st) with
        | Some c, Some d => StepsView c d
        | _, _ => StepsEmpty
        end
      else NoScreen
  end.

(** One click on the loaded page. Every button belongs to a view that
    is rendered only when the card list was computed: the three segment
    buttons (lines 289-306), [Preview] in a dashboard row (line 369), a
    card of the listing (line 435), the back arrow and the call to
    action of the detail page (lines 494 and 549), the back arrow of the
    steps page (line 575). *)
Inductive uiStep (data : ParsedData) : UIState → UIState → Prop :=
  | click_segment (st : UIState) (cards : list Object) (segment : string) :
      mobileCards (Some data) (userSegment st) = Normal cards →
      segment ∈ ["All"; "New User"; "Existing User"] →
      uiStep data st (setUserSegment segment st)
  | click_preview (st : UIState) (cards : list Object) (row : Object) :
      mobileCards (Some data) (userSegment st) = Normal cards →
      row ∈ dashboardRows (Some data) →
      uiStep data st (handlePreviewClick (ofProp (row !! "Config_ID")) st)
  | click_card (st : UIState) (cards : list Object) (c : Object) :
      mobileCards (Some data) (userSegment st) = Normal cards →
      mobileView data cards st = ListingView cards →
      c ∈ cards →
      uiStep data st (handleCardClick (ofProp (c !! "Config_ID")) st)
  | click_detail_back (st : UIState) (cards : list Object) (c d : Object) :
      mobileCards (Some data) (userSegment st) = Normal cards →
      mobileView data cards st = DetailView c d →
      uiStep data st (setMobileScreen Listing st)
  | click_detail_cta (st : UIState) (cards : list Object) (c d : Object) :
      mobileCards (Some data) (userSegment st) = Normal cards →
      mobileView data cards st = DetailView c d →
      uiStep data st (setMobileScreen Steps st)
  | click_steps_back (st : UIState) (cards : list Object) (c d : Object) :
      mobileCards (Some data) (userSegment st) = Normal cards →
      mobileView data cards st = StepsView c d →
      uiStep data st (setMobileScreen Detail st).

(** One active partner, one card and its product detail record. *)
Definition previewData : ParsedData :=
  mkParsedData [activePartner] [card "C1"]
    [ {[ "Config_ID" := "C1"; "Hero_Banner_URL" := "hero.png" ]} ] [].

(** What holds of the preview state after any sequence of clicks. *)
Definition previewInvariant (data : ParsedData) (st : UIState) : Prop :=
  (mobileScreen st ≠ Listing →
   ∃ c, c ∈ cardUIConfig data ∧ hasActivePartner data c
        ∧ activeCardId st = ofProp (c !! "Config_ID"))
  ∧ (mobileScreen st = Steps →
     truthyValue (activeCardId st) = true
     ∧ is_Some (findCard data (activeCardId st))
     ∧ is_Some (findDetail data (activeCardId st))).

(** ** Facts about the string primitives *)

Section StringFacts.

Lemma truthy_false (s : string) : truthy s = false ↔ s = "".
Proof. destruct s; simpl; split; congruence. Qed.

Lemma truthy_true (s : string) : truthy s = true ↔ s ≠ "".
Proof. destruct s; simpl; split; congruence. Qed.

Lemma trimEnd_empty (s : string) :
  trimEnd s = "" ↔ Forall (λ c, isWhiteSpace c = true) (list_ascii_of_string s).
Proof.
  induction s as [|c r IH]; simpl.
  - split; [constructor | done].
  - rewrite Forall_cons, <- IH.
    destruct (trimEnd r) eqn:Hr, (isWhiteSpace c); naive_solver.
Qed.

Lemma trimStart_empty (s : string) :
  trimStart s = "" ↔ Forall (λ c, isWhiteSpace c = true) (list_ascii_of_string s).
Proof.
  induction s as [|c r IH]; simpl.
  - split; [constructor | done].
  - rewrite Forall_cons, <- IH.
    destruct (isWhiteSpace c); naive_solver.
Qed.

(** What [trimStart] returns is empty or starts with a character that is
    not white space. *)
Lemma trimStart_head (s : string) :
  match trimStart s with
  | EmptyString => True
  | String c _ => isWhiteSpace c = false
  end.
Proof.
  induction s as [|c r IH]; simpl; [done|].
  destruct (isWhiteSpace c) eqn:Hc; [done | by rewrite Hc].
Qed.

Lemma trim_empty (s : string) :
  trim s = "" ↔ Forall (λ c, isWhiteSpace c = true) (list_ascii_of_string s).
Proof.
  unfold trim. rewrite <- trimStart_empty. split.
  - intros H. pose proof (trimStart_head s) as Hh.
    destruct (trimStart s) as [|c r]; [done|].
    apply trimEnd_empty in H. apply Forall_cons in H as [H _]. congruence.
  - by intros ->.
Qed.

Lemma trim_nil : trim "" = "".
Proof. reflexivity. Qed.

(** Trimming what [trimEnd] returned changes nothing more at the end. *)
Lemma trimEnd_idemp (s : string) : trimEnd (trimEnd s) = trimEnd s.
Proof.
  induction s as [|c r IH]; simpl; [done|].
  destruct (trimEnd r) as [|c' r'] eqn:Hr.
  - destruct (isWhiteSpace c) eqn:Hc; simpl; [done | by rewrite Hc].
  - simpl in *. by rewrite IH.
Qed.

Lemma trimEnd_head (c : ascii) (r : string) :
  isWhiteSpace c = false → ∃ r', trimEnd (String c r) = String c r'.
Proof.
  intros Hc. simpl. destruct (trimEnd r); rewrite ?Hc; eauto.
Qed.

Lemma trim_idemp (s : string) : trim (trim s) = trim s.
Proof.
  unfold trim. pose proof (trimStart_head s) as Hh.
  destruct (trimStart s) as [|c r] eqn:Hs; [done|].
  destruct (trimEnd_head c r Hh) as [r' Hr']. rewrite Hr'.
  simpl trimStart. rewrite Hh, <- Hr'. apply trimEnd_idemp.
Qed.

End StringFacts.

(** ** Facts about the parser *)

Section ParserFacts.

Lemma isBlankRow_spec (row : list string) :
  isBlankRow row = true ↔ blankRow row.
Proof.
  unfold isBlankRow, blankRow. rewrite orb_true_iff, forallb_forall.
  rewrite Forall_forall. split.
  - intros [Hlen | Hall] cell Hin.
    + destruct row; [by apply elem_of_nil in Hin | done].
    + right. apply list_elem_of_In, Hall in Hin.
      apply orb_true_iff in Hin as [H | H]; apply negb_true_iff, truthy_false in H.
      * subst. constructor.
      * by apply trim_empty.
  - intros Hall. right. intros cell Hin%list_elem_of_In.
    apply orb_true_iff. right. apply negb_true_iff, truthy_false, trim_empty.
    destruct (Hall _ Hin) as [-> | H]; [constructor | done].
Qed.

Lemma isBlankRow_false (row : list string) :
  isBlankRow row = false ↔ ¬ blankRow row.
Proof.
  rewrite <- isBlankRow_spec. destruct (isBlankRow row); split; congruence.
Qed.

Lemma includes_spec (row : list string) (name : string) :
  includes row name = true ↔ name ∈ row.
Proof. unfold includes. apply bool_decide_eq_true. Qed.

Lemma strictEq_spec (a b : option string) : strictEq a b = true ↔ a = b.
Proof. unfold strictEq. apply bool_decide_eq_true. Qed.

(** Which rows each branch of the header chain takes. *)
Lemma detectHeader_spec (row : list string) :
  (detectHeader row = Some Partner_Master ↔
     firstCellOf row = Some "Partner_ID" ∧ "Partner_Name" ∈ row) ∧
  (detectHeader row = Some Card_UI_Config ↔
     firstCellOf row = Some "Config_ID" ∧ "Card_Title" ∈ row) ∧
  (detectHeader row = Some Product_Detail_Config ↔
     firstCellOf row = Some "Config_ID" ∧ ("Card_Title" ∉ row)
     ∧ "Hero_Banner_URL" ∈ row) ∧
  (detectHeader row = Some Display_Rules ↔
     firstCellOf row = Some "Rule_ID" ∧ "User_Segment" ∈ row).
Proof.
  unfold detectHeader, strictEq, includes.
  destruct (firstCellOf row) as [c|]; simpl.
  2: { repeat split; try discriminate; by intros [? _]. }
  repeat case_bool_decide; simpl;
    repeat split; intros;
    repeat match goal with Hx : _ ∧ _ |- _ => destruct Hx end;
    simplify_eq; done.
Qed.

(** A row taken for a header is not blank, so the separator test that
    comes first in the loop never hides a header. *)
Lemma detectHeader_not_blank (row : list string) (t : TableName) :
  detectHeader row = Some t → isBlankRow row = false.
Proof.
  intros Hd. apply isBlankRow_false. intros Hb.
  assert (∃ c, firstCellOf row = Some c ∧ c ≠ "") as (c & Hc & Hne).
  { pose proof (detectHeader_spec row) as (H1 & H2 & H3 & H4).
    destruct t;
      [apply H1 in Hd | apply H2 in Hd | apply H3 in Hd | apply H4 in Hd];
      destruct Hd as [-> _]; eexists; split; done. }
  unfold firstCellOf in Hc. destruct row as [|cell row]; [done|].
  simpl in Hc. simplify_eq. apply Forall_cons in Hb as [[-> | Hw] _].
  - by apply Hne.
  - by apply Hne, trim_empty.
Qed.

Lemma cellValue_trim (row : list string) (i : nat) :
  cellValue row i = match row !! i with Some cell => trim cell | None => "" end.
Proof.
  unfold cellValue. destruct (row !! i) as [cell|]; [|done].
  destruct cell; done.
Qed.

Lemma lastIndexOf_Some (k : string) (headers : list string) (i : nat) :
  lastIndexOf k headers = Some i ↔
  headers !! i = Some k ∧ ∀ j, (i < j)%nat → headers !! j ≠ Some k.
Proof.
  revert i. induction headers as [|h rest IH]; intros i; simpl.
  - split; [done | by intros [? _]].
  - destruct (lastIndexOf k rest) as [i'|] eqn:Hl.
    + pose proof (proj1 (IH i') eq_refl) as [Hi' Hlast]. split.
      * intros [= <-]. split; [done|].
        intros [|j] Hj; [lia|]. simpl. apply Hlast. lia.
      * intros [Hi Hl']. destruct i as [|i].
        -- exfalso. apply (Hl' (S i')); [lia | done].
        -- assert (Some i' = Some i) as [= ->]; [|done].
           apply IH. split; [done|].
           intros j Hj. apply (Hl' (S j)). lia.
    + assert (∀ j, rest !! j ≠ Some k) as Hnone.
      { intros j Hj. assert (lastIndexOf k rest = None → k ∉ rest) as Hn.
        { clear. induction rest as [|h' r IHr]; simpl; [intros _; apply not_elem_of_nil|].
          destruct (lastIndexOf k r); [done|]. case_decide; [done|].
          intros _. apply not_elem_of_cons. split; [done | by apply IHr]. }
        apply (Hn Hl). by eapply list_elem_of_lookup_2. }
      case_decide as Hh.
      * subst h. split.
        -- intros [= <-]. split; [done|]. intros [|j] Hj; [lia|]. apply Hnone.
        -- intros [Hi _]. destruct i as [|i]; [done|]. by apply Hnone in Hi.
      * split; [done|]. intros [Hi _]. destruct i as [|i].
        -- simpl in Hi. congruence.
        -- by apply Hnone in Hi.
Qed.

Lemma lastIndexOf_None (k : string) (headers : list string) :
  lastIndexOf k headers = None ↔ k ∉ headers.
Proof.
  induction headers as [|h rest IH]; simpl.
  - split; [intros _; apply not_elem_of_nil | done].
  - rewrite not_elem_of_cons, <- IH.
    destruct (lastIndexOf k rest); [naive_solver|].
    case_decide; naive_solver.
Qed.

Lemma setProp_lookup (obj : Object) (key value k : string) :
  setProp obj key value !! k =
  if decide (key = k ∧ k ≠ "__proto__") then Some value else obj !! k.
Proof.
  unfold setProp. case_decide as Hp.
  - subst key. case_decide as H; [by destruct H as [<- ?] | done].
  - rewrite lookup_insert. repeat case_decide; naive_solver.
Qed.

(** The property [k] after the [forEach] over the headers that start at
    position [index]. *)
Lemma forEachHeader_lookup (headers : list string) (index : nat)
    (row : list string) (obj : Object) (k : string) :
  forEachHeader headers index row obj !! k =
  if decide (k = "" ∨ k = "__proto__") then obj !! k
  else match lastIndexOf k headers with
       | Some i => Some (cellValue row (index + i))
       | None => obj !! k
       end.
Proof.
  revert index obj. induction headers as [|h rest IH]; intros index obj; simpl.
  - by case_decide.
  - rewrite IH. case_decide as Hk.
    + destruct (truthy h) eqn:Hh; [|done].
      rewrite setProp_lookup. case_decide as H; [|done].
      destruct H as [-> Hne]. apply truthy_true in Hh. naive_solver.
    + destruct (lastIndexOf k rest) as [i|] eqn:Hl.
      * f_equal. f_equal. lia.
      * case_decide as Hhk.
        -- subst h. assert (truthy k = true) as -> by (apply truthy_true; naive_solver).
           rewrite setProp_lookup, decide_True by naive_solver.
           f_equal. f_equal. lia.
        -- destruct (truthy h); [|done].
           rewrite setProp_lookup, decide_False by naive_solver. done.
Qed.

Lemma buildRecord_lookup (headers row : list string) (k : string) :
  buildRecord headers row !! k =
  if decide (k = "" ∨ k = "__proto__") then None
  else cellValue row <$> lastIndexOf k headers.
Proof.
  unfold buildRecord. rewrite forEachHeader_lookup, lookup_empty.
  case_decide; [done|]. by destruct (lastIndexOf k headers).
Qed.

End ParserFacts.

(** ** Header rows: disambiguation and white space (C6, C10) *)

Section HeaderRows.

Lemma processRow_header (st : LoopState) (row : list string) (t : TableName) :
  detectHeader row = Some t →
  processRow st row = mkLoopState (Some t) (trim <$> row) (tables st).
Proof.
  intros Hd. unfold processRow.
  by rewrite (detectHeader_not_blank row t Hd), Hd.
Qed.

Lemma processRow_data (st : LoopState) (row : list string) (t : TableName) :
  isBlankRow row = false → detectHeader row = None → currentTable st = Some t →
  processRow st row =
  mkLoopState (Some t) (currentHeaders st)
    (pushRecord t (buildRecord (currentHeaders st) row) (tables st)).
Proof. intros Hb Hd Ht. unfold processRow. by rewrite Hb, Hd, Ht. Qed.

Lemma processRow_orphan (st : LoopState) (row : list string) :
  isBlankRow row = false → detectHeader row = None → currentTable st = None →
  processRow st row = st.
Proof. intros Hb Hd Ht. unfold processRow. by rewrite Hb, Hd, Ht. Qed.

Lemma processRow_blank (st : LoopState) (row : list string) :
  isBlankRow row = true →
  processRow st row = mkLoopState None (currentHeaders st) (tables st).
Proof. intros Hb. unfold processRow. by rewrite Hb. Qed.

(** C6. A row whose first cell trims to [Config_ID]: if some cell is
    [Card_Title] the loop switches to [Card_UI_Config], whatever else the
    row holds ([Hero_Banner_URL] included) and whatever the state was; if
    no cell is [Card_Title] and some cell is [Hero_Banner_URL] it switches
    to [Product_Detail_Config]. The data row [next] that follows is
    appended to that table and the other of the two tables is left as it
    was. [st] is arbitrary, so the row may come anywhere in a grid, also
    right after rows of the other kind. *)
Theorem config_header_disambiguation (st : LoopState) (row next : list string) :
  firstCellOf row = Some "Config_ID" →
  isBlankRow next = false →
  detectHeader next = None →
  ("Card_Title" ∈ row →
     processRow st row
       = mkLoopState (Some Card_UI_Config) (trim <$> row) (tables st)
     ∧ tables (processRows st [row; next])
       = pushRecord Card_UI_Config (buildRecord (trim <$> row) next) (tables st)
     ∧ productDetailConfig (tables (processRows st [row; next]))
       = productDetailConfig (tables st))
  ∧ ("Card_Title" ∉ row → "Hero_Banner_URL" ∈ row →
     processRow st row
       = mkLoopState (Some Product_Detail_Config) (trim <$> row) (tables st)
     ∧ tables (processRows st [row; next])
       = pushRecord Product_Detail_Config (buildRecord (trim <$> row) next)
           (tables st)
     ∧ cardUIConfig (tables (processRows st [row; next]))
       = cardUIConfig (tables st)).
Proof.
  intros Hfirst Hb Hd.
  pose proof (detectHeader_spec row) as (_ & Hcard & Hdetail & _).
  split.
  - intros Hin.
    assert (detectHeader row = Some Card_UI_Config) as Hh by by apply Hcard.
    unfold processRows. simpl.
    rewrite (processRow_header st row _ Hh).
    by erewrite processRow_data by done.
  - intros Hnot Hin.
    assert (detectHeader row = Some Product_Detail_Config) as Hh by by apply Hdetail.
    unfold processRows. simpl.
    rewrite (processRow_header st row _ Hh).
    by erewrite processRow_data by done.
Qed.

Lemma config_header_disambiguation_witness :
  processRow initialState ["Config_ID"; "Hero_Banner_URL"; "Card_Title"]
  = mkLoopState (Some Card_UI_Config)
      ["Config_ID"; "Hero_Banner_URL"; "Card_Title"] emptyTables.
Proof.
  apply (config_header_disambiguation initialState
           ["Config_ID"; "Hero_Banner_URL"; "Card_Title"] ["C1"; "u"; "t"]);
    [reflexivity | reflexivity | reflexivity |].
  apply (bool_decide_unpack _). reflexivity.
Defined.

(** Both header kinds back to back in one grid, in either order. *)
Example config_headers_back_to_back :
  let card := ["Config_ID"; "Partner_ID"; "Card_Title"] in
  let detail := ["Config_ID"; "Hero_Banner_URL"; "TnC_Content"] in
  let a := ["C1"; "P1"; "Gold"] in
  let b := ["C1"; "hero.png"; "terms"] in
  fetchData [card; a; detail; b]
    = mkParsedData [] [buildRecord card a] [buildRecord detail b] []
  ∧ fetchData [detail; b; card; a]
    = mkParsedData [] [buildRecord card a] [buildRecord detail b] []
  ∧ fetchData [card; detail; b]
    = mkParsedData [] [] [buildRecord detail b] []
  ∧ fetchData [detail; card; a]
    = mkParsedData [] [buildRecord card a] [] [].
Proof. vm_compute. done. Qed.



End HeaderRows.

(** ** Separator rows and orphan rows (C7) *)

Section Separators.

(** While no table is current, rows that are not header rows leave the
    tables as they are and no table becomes current. *)
Lemma processRows_no_table (st : LoopState) (rows : list (list string)) :
  currentTable st = None →
  Forall (λ r, detectHeader r = None) rows →
  currentTable (processRows st rows) = None
  ∧ tables (processRows st rows) = tables st.
Proof.
  intros Ht Hrows. revert st Ht.
  induction Hrows as [|r rows Hr _ IH]; intros st Ht; [done|].
  unfold processRows in *. simpl.
  destruct (isBlankRow r) eqn:Hb.
  - rewrite (processRow_blank st r Hb).
    destruct (IH (mkLoopState None (currentHeaders st) (tables st)) eq_refl)
      as [H1 H2]. by rewrite H1, H2.
  - rewrite (processRow_orphan st r Hb Hr Ht). by apply IH.
Qed.

Lemma processRows_app (st : LoopState) (rows1 rows2 : list (list string)) :
  processRows st (rows1 ++ rows2) = processRows (processRows st rows1) rows2.
Proof. unfold processRows. apply foldl_app. Qed.



End Separators.

(** ** The record of a data row (C8) *)

Section DataRows.



(** Ragged rows on a concrete header. *)
Example buildRecord_ragged :
  buildRecord ["Config_ID"; ""; "Card_Title"; "Badge_Text"]
              [" C1 "; "dropped"; " Gold"]
  = {[ "Config_ID" := "C1"; "Card_Title" := "Gold"; "Badge_Text" := "" ]}
  ∧ buildRecord ["Config_ID"; "Card_Title"] ["C1"; "Gold "; "extra"; "more"]
  = {[ "Config_ID" := "C1"; "Card_Title" := "Gold" ]}.
Proof. vm_compute. done. Qed.

End DataRows.

(** ** Facts about the array operations *)

Section ArrayFacts.
Context {A : Type}.

Lemma find_FirstMatch (p : A → bool) (l : list A) :
  FirstMatch (λ x, p x = true) l (List.find p l).
Proof.
  induction l as [|x l IH]; simpl.
  - constructor. constructor.
  - destruct (p x) eqn:Hx.
    + apply (FirstMatch_some _ [] x l); [constructor | done].
    + destruct IH as [l Hall | pre y post Hpre Hy].
      * constructor. constructor; [congruence | done].
      * apply (FirstMatch_some _ (x :: pre) y post); [|done].
        constructor; [congruence | done].
Qed.

Lemma filterE_total (p : A → completion bool) (q : A → bool) (l : list A) :
  Forall (λ x, p x = Normal (q x)) l →
  filterE p l = Normal (List.filter q l).
Proof.
  induction 1 as [|x l Hx _ IH]; simpl; [done|].
  rewrite Hx, IH. simpl. by destruct (q x).
Qed.

Lemma filterE_Normal (p : A → completion bool) (l r : list A) :
  filterE p l = Normal r → Forall (λ x, ∃ b, p x = Normal b) l.
Proof.
  revert r. induction l as [|x l IH]; intros r; simpl; [constructor|].
  destruct (p x) as [b|] eqn:Hx; simpl; [|done].
  destruct (filterE p l) as [r'|] eqn:Hl; simpl; [|done].
  intros _. constructor; [eauto | by eapply IH].
Qed.

Lemma elem_of_List_filter (q : A → bool) (l : list A) (x : A) :
  x ∈ List.filter q l ↔ x ∈ l ∧ q x = true.
Proof. rewrite !list_elem_of_In. apply filter_In. Qed.

Context (cmp : A → A → Number).

Lemma sortInsert_perm (x : A) (l : list A) : sortInsert cmp x l ≡ₚ x :: l.
Proof.
  induction l as [|y l IH]; simpl; [done|].
  destruct (0 <? sortCompare cmp x y); [|done].
  by rewrite IH, Permutation_swap.
Qed.

(** Whatever the comparator answers, sorting rearranges the array. *)
Lemma sort_perm (l : list A) : sort cmp l ≡ₚ l.
Proof.
  induction l as [|x l IH]; simpl; [done|].
  by rewrite sortInsert_perm, IH.
Qed.

Context (key : A → Z).

Lemma sortInsert_sorted (x : A) (l : list A) :
  Forall (λ y, cmp x y = Num (key y - key x)) l →
  StronglySorted (λ a b, key b ≤ key a) l →
  StronglySorted (λ a b, key b ≤ key a) (sortInsert cmp x l).
Proof.
  induction l as [|y l IH]; simpl; intros Hc Hs.
  - repeat constructor.
  - apply Forall_cons in Hc as [Hy Hc].
    apply StronglySorted_cons in Hs as [Hyl Hs].
    unfold sortCompare. rewrite Hy.
    destruct (0 <? key y - key x) eqn:Hlt.
    + apply Z.ltb_lt in Hlt. apply StronglySorted_cons. split; [|by apply IH].
      rewrite sortInsert_perm. constructor; [lia | done].
    + apply Z.ltb_ge in Hlt. apply StronglySorted_cons. split.
      * constructor; [lia|]. eapply Forall_impl; [exact Hyl|].
        simpl. intros z Hz. lia.
      * by apply StronglySorted_cons.
Qed.

Lemma sortInsert_stable (x : A) (l : list A) (k : Z) :
  Forall (λ y, cmp x y = Num (key y - key x)) l →
  filter (λ a, key a = k) (sortInsert cmp x l)
  = filter (λ a, key a = k) (x :: l).
Proof.
  induction l as [|y l IH]; simpl; intros Hc; [done|].
  apply Forall_cons in Hc as [Hy Hc].
  unfold sortCompare. rewrite Hy.
  destruct (0 <? key y - key x) eqn:Hlt; [|done].
  apply Z.ltb_lt in Hlt.
  rewrite (filter_cons _ y), IH by done.
  rewrite !filter_cons. repeat case_decide; try done; lia.
Qed.

(** When the comparator answers [key b - key a] on the elements of [l],
    [sort] is the stable sort by descending key. *)
Lemma sort_StableDescending (l : list A) :
  (∀ a b, a ∈ l → b ∈ l → cmp a b = Num (key b - key a)) →
  StableDescending key l (sort cmp l).
Proof.
  intros Hc. split; [apply sort_perm|].
  induction l as [|x l IH]; simpl.
  - split; [constructor | done].
  - destruct IH as [IHs IHf].
    { intros a b Ha Hb. apply Hc; by right. }
    assert (Forall (λ y, cmp x y = Num (key y - key x)) (sort cmp l)) as Hx.
    { apply Forall_forall. intros y Hy. rewrite sort_perm in Hy.
      apply Hc; [by left | by right]. }
    split; [by apply sortInsert_sorted|].
    intros k. rewrite sortInsert_stable by done.
    by rewrite !filter_cons, IHf.
Qed.

End ArrayFacts.

(** ** Comparison of text without regard to case *)

Section CaseFacts.

Lemma lowerChar_upperChar (a : ascii) : lowerChar (upperChar a) = lowerChar a.
Proof. destruct a as [[] [] [] [] [] [] [] []]; reflexivity. Qed.

Lemma upperChar_lowerChar (a : ascii) : upperChar (lowerChar a) = upperChar a.
Proof. destruct a as [[] [] [] [] [] [] [] []]; reflexivity. Qed.

Lemma upperChar_eq (a b : ascii) :
  upperChar a = upperChar b ↔ lowerChar a = lowerChar b.
Proof.
  split; intros H.
  - by rewrite <- (lowerChar_upperChar a), H, lowerChar_upperChar.
  - by rewrite <- (upperChar_lowerChar a), H, upperChar_lowerChar.
Qed.

(** Comparing the upper-cased texts, as the program does, is comparison
    without regard to case. *)
Lemma toUpperCase_eqIgnoreCase (s t : string) :
  toUpperCase s = toUpperCase t ↔ eqIgnoreCase s t = true.
Proof.
  unfold toUpperCase. revert t.
  induction s as [|a s IH]; intros [|b t]; simpl; try done.
  rewrite andb_true_iff, bool_decide_eq_true, <- IH, <- upperChar_eq.
  split; [intros [= Ha Hs] | intros [Ha Hs]]; by rewrite ?Ha, ?Hs.
Qed.

Lemma active_eqIgnoreCase (status : string) :
  toUpperCase status = "ACTIVE" ↔ eqIgnoreCase status "active" = true.
Proof. apply (toUpperCase_eqIgnoreCase status "active"). Qed.

End CaseFacts.

(** ** The dashboard join (C5, C9) *)

Section Dashboard.

Lemma orElse_joined (o : option Object) (key dflt : string) :
  orElse (optProp o key) dflt = joined o key dflt.
Proof.
  destruct o as [obj|]; simpl; [|done].
  destruct (obj !! key) as [[|c v]|]; done.
Qed.

(** [find] with the test [o.key === v] returns the first record whose
    property [key] is [v]. *)
Lemma find_strictEq_first (key : string) (v : option string) (l : list Object) :
  FirstMatch (λ o, o !! key = v) l
             (List.find (λ o, strictEq (o !! key) v) l).
Proof.
  destruct (find_FirstMatch (λ o, strictEq (o !! key) v) l)
    as [l Hl | pre x post Hpre Hx].
  - constructor. eapply Forall_impl; [exact Hl|].
    simpl. intros o Ho. by rewrite <- strictEq_spec.
  - constructor; [|by apply strictEq_spec].
    eapply Forall_impl; [exact Hpre|].
    simpl. intros o Ho. by rewrite <- strictEq_spec.
Qed.

Lemma findPartner_first (data : ParsedData) (config : Object) :
  FirstMatch (λ p, p !! "Partner_ID" = config !! "Partner_ID")
             (partnerMaster data) (findPartner data config).
Proof. apply find_strictEq_first. Qed.


Lemma dashboardRow_lookup (data : ParsedData) (config : Object) (k : string) :
  dashboardRow data config !! k =
  if decide (k = "User_Segment")
  then Some (joined (findRule data config) "User_Segment" "All")
  else if decide (k = "Priority")
  then Some (joined (findRule data config) "Priority" "0")
  else if decide (k = "Status")
  then Some (joined (findPartner data config) "Status" "INACTIVE")
  else if decide (k = "Partner_Name")
  then Some (joined (findPartner data config) "Partner_Name" "Unknown")
  else config !! k.
Proof.
  unfold dashboardRow. rewrite !orElse_joined.
  repeat (rewrite lookup_insert; case_decide; subst;
          [by repeat (case_decide; try done)|]).
  by repeat (case_decide; try congruence).
Qed.




(** C9. The defaults apply when no record matches, and they also apply
    when a record matches and the joined text is the empty string: an
    empty [Partner_Name] reads ["Unknown"], an empty [Status] reads
    ["INACTIVE"], an empty [Priority] reads ["0"] and an empty
    [User_Segment] reads ["All"]. *)
Theorem dashboardRows_empty_text_defaults (data : ParsedData) (i : nat)
    (config : Object) :
  cardUIConfig data !! i = Some config →
  ∃ row, dashboardRows (Some data) !! i = Some row
    ∧ (findPartner data config = None →
         row !! "Partner_Name" = Some "Unknown"
         ∧ row !! "Status" = Some "INACTIVE")
    ∧ (findRule data config = None →
         row !! "Priority" = Some "0" ∧ row !! "User_Segment" = Some "All")
    ∧ (∀ partner, findPartner data config = Some partner →
         (partner !! "Partner_Name" = Some "" →
            row !! "Partner_Name" = Some "Unknown")
         ∧ (partner !! "Status" = Some "" → row !! "Status" = Some "INACTIVE"))
    ∧ (∀ rule, findRule data config = Some rule →
         (rule !! "Priority" = Some "" → row !! "Priority" = Some "0")
         ∧ (rule !! "User_Segment" = Some "" →
              row !! "User_Segment" = Some "All")).
Proof.
  intros Hi. exists (dashboardRow data config).
  split; [by simpl; rewrite list_lookup_fmap, Hi|].
  split; [by intros Hp; rewrite !dashboardRow_lookup, Hp|].
  split; [by intros Hr; rewrite !dashboardRow_lookup, Hr|].
  split.
  - intros partner Hp. rewrite !dashboardRow_lookup, Hp. simpl.
    split; by intros ->.
  - intros rule Hr. rewrite !dashboardRow_lookup, Hr. simpl.
    split; by intros ->.
Qed.

Lemma dashboardRows_empty_text_defaults_witness :
  ∃ row, dashboardRows (Some unnamedPartnerData) !! 0%nat = Some row
         ∧ row !! "Partner_Name" = Some "Unknown".
Proof.
  destruct (dashboardRows_empty_text_defaults unnamedPartnerData 0
              {[ "Config_ID" := "C1"; "Partner_ID" := "P1";
                 "Card_Title" := "Gold" ]} eq_refl)
    as (row & Hrow & _ & _ & Hpartner & _).
  exists row. split; [exact Hrow|].
  apply (Hpartner
           {[ "Partner_ID" := "P1"; "Partner_Name" := ""; "Status" := "ACTIVE" ]});
    reflexivity.
Defined.

End Dashboard.

(** ** The mobile card list (C1 - C4) *)

Section MobileCards.

Lemma mobileCards_value (data : ParsedData) (segment : string) :
  partnersHaveStatus data →
  mobileCards (Some data) segment
  = Normal (sort (byPriority data) (filteredCards data segment)).
Proof.
  intros Hs. unfold mobileCards.
  rewrite (filterE_total isActivePartner activeStatus); [done|].
  eapply Forall_impl; [exact Hs|]. simpl. intros p [status Hp].
  unfold isActivePartner, activeStatus. by rewrite Hp.
Qed.

Lemma mobileCards_returns (data : ParsedData) (segment : string) :
  partnersHaveStatus data ↔ ∃ cards, mobileCards (Some data) segment = Normal cards.
Proof.
  split.
  - intros Hs. eexists. by apply mobileCards_value.
  - intros [cards Hc]. unfold mobileCards in Hc.
    destruct (filterE isActivePartner (partnerMaster data)) as [active|] eqn:Hf;
      [|done].
    apply filterE_Normal in Hf. eapply Forall_impl; [exact Hf|].
    simpl. intros p [b Hb]. unfold isActivePartner in Hb.
    destruct (p !! "Status"); [eauto | done].
Qed.

Lemma activeGate_spec (data : ParsedData) (c : Object) :
  activeGate data c = true ↔ hasActivePartner data c.
Proof.
  unfold activeGate, hasActivePartner.
  rewrite bool_decide_eq_true, elem_of_list_to_set, list_elem_of_fmap.
  split.
  - intros (p & Hid & Hp). apply elem_of_List_filter in Hp as [Hp Ha].
    unfold activeStatus in Ha. destruct (p !! "Status") as [status|] eqn:Hst; [|done].
    apply bool_decide_eq_true, active_eqIgnoreCase in Ha. by exists p, status.
  - intros (p & status & Hp & Hid & Hst & Ha). exists p. split; [done|].
    apply elem_of_List_filter. split; [done|].
    unfold activeStatus. rewrite Hst.
    by apply bool_decide_eq_true, active_eqIgnoreCase.
Qed.

Lemma matchesSegment_spec (data : ParsedData) (segment : string) (c : Object) :
  matchesSegment data segment c = true ↔ segmentEligible data segment c.
Proof.
  unfold matchesSegment, segmentEligible.
  set (rules := List.filter _ (displayRules data)).
  assert (∀ r, r ∈ rules ↔
            r ∈ displayRules data ∧ r !! "Config_ID" = c !! "Config_ID") as Hrules.
  { intros r. unfold rules. by rewrite elem_of_List_filter, strictEq_spec. }
  destruct rules as [|r0 rules'] eqn:E.
  - simpl. split; [|done]. intros _. left. intros r Hr Hid.
    eapply not_elem_of_nil, Hrules. eauto.
  - change (List.length (r0 :: rules') =? 0)%nat with false. cbv iota.
    rewrite existsb_exists. split.
    + intros (r & Hr%list_elem_of_In%Hrules & Hseg). right. exists r.
      destruct Hr as [Hr Hid]. split; [done|]. split; [done|].
      apply orb_true_iff in Hseg. by rewrite <- !strictEq_spec.
    + intros [Hnone | (r & Hr & Hid & Hseg)].
      * exfalso. assert (r0 ∈ r0 :: rules') as H0 by by left.
        apply Hrules in H0 as [H0 Hid]. by eapply Hnone.
      * exists r. split; [by apply list_elem_of_In, Hrules|].
        apply orb_true_iff. by rewrite !strictEq_spec.
Qed.

Lemma elem_of_filteredCards (data : ParsedData) (segment : string) (c : Object) :
  c ∈ filteredCards data segment ↔
  c ∈ cardUIConfig data ∧ hasActivePartner data c ∧ segmentEligible data segment c.
Proof.
  unfold filteredCards.
  rewrite !elem_of_List_filter, activeGate_spec, matchesSegment_spec.
  naive_solver.
Qed.

Lemma elem_of_mobileCards (data : ParsedData) (segment : string)
    (cards : list Object) (c : Object) :
  mobileCards (Some data) segment = Normal cards →
  c ∈ cards ↔
  c ∈ cardUIConfig data ∧ hasActivePartner data c ∧ segmentEligible data segment c.
Proof.
  intros Hc.
  assert (partnersHaveStatus data) as Hs by (apply (mobileCards_returns _ segment); eauto).
  rewrite (mobileCards_value _ _ Hs) in Hc. injection Hc as <-.
  by rewrite sort_perm, elem_of_filteredCards.
Qed.

End MobileCards.

Section MobileCardsClaims.



(** C3. Among the cards of active partners, the list holds exactly those
    that have no rule record with their [Config_ID], or have one whose
    segment is ["All"] or is the requested segment; the comparison is
    equality of the texts. *)
Theorem mobileCards_segment_gate (data : ParsedData) (segment : string) :
  partnersHaveStatus data →
  ∃ cards, mobileCards (Some data) segment = Normal cards
    ∧ ∀ c, c ∈ cardUIConfig data → hasActivePartner data c →
        ((∀ r, r ∈ displayRules data → r !! "Config_ID" ≠ c !! "Config_ID") →
           c ∈ cards)
        ∧ ((∃ r, r ∈ displayRules data ∧ r !! "Config_ID" = c !! "Config_ID") →
           (c ∈ cards ↔
            ∃ r, r ∈ displayRules data
              ∧ r !! "Config_ID" = c !! "Config_ID"
              ∧ (r !! "User_Segment" = Some "All"
                 ∨ r !! "User_Segment" = Some segment))).
Proof.
  intros Hs. eexists. split; [by apply mobileCards_value|].
  intros c Hc Ha. split.
  - intros Hnone. rewrite sort_perm, elem_of_filteredCards.
    split; [done|]. split; [done|]. by left.
  - intros (r & Hr & Hid). rewrite sort_perm, elem_of_filteredCards.
    unfold segmentEligible. split.
    + intros (_ & _ & [Hnone | Hsome]); [|done]. by destruct (Hnone r Hr).
    + intros Hsome. split; [done|]. split; [done|]. by right.
Qed.

Lemma mobileCards_segment_gate_witness :
  ∃ cards, mobileCards (Some newUserData) "New User" = Normal cards
           ∧ card "C1" ∈ cards.
Proof.
  destruct (mobileCards_segment_gate newUserData "New User")
    as (cards & Hcards & Hgate).
  { repeat constructor. by eexists. }
  exists cards. split; [exact Hcards|].
  apply (Hgate (card "C1")).
  - by left.
  - exists activePartner, "Active". split; [by left|]. done.
  - exists (rule "R1" "C1" "New User" "1"). split; [by left|]. done.
  - exists (rule "R1" "C1" "New User" "1"). split; [by left|]. split; [done|].
    by right.
Defined.

(** The segment gate on one rule for segment [New User]. *)
Example mobileCards_new_user :
  mobileCards (Some newUserData) "New User" = Normal [card "C1"]
  ∧ mobileCards (Some newUserData) "Existing User" = Normal []
  ∧ mobileCards (Some newUserData) "All" = Normal []
  ∧ mobileCards (Some newUserData) "new user" = Normal [].
Proof. vm_compute. done. Qed.

(** The priority is [0] for a card without a rule and for a first rule
    whose [Priority] is missing or empty; [priorityOf] is a total
    function, so reading a priority never raises. *)
Lemma priorityOf_default (data : ParsedData) (c : Object) :
  findRule data c = None
  ∨ (∃ r, findRule data c = Some r
        ∧ (r !! "Priority" = None ∨ r !! "Priority" = Some "")) →
  priorityOf data c = Num 0.
Proof.
  unfold priorityOf. intros [-> | (r & -> & [Hp | Hp])]; simpl; by rewrite ?Hp.
Qed.

(** C2, at a rule whose priority cell reads [high]. The text has no
    leading integer, [parseInt] answers [NaN], and that is the priority
    the comparator works with: it is not [0]. *)
Theorem priorityOf_text_is_NaN :
  findRule textPriorityData (card "A") = Some (rule "R1" "A" "All" "high")
  ∧ priorityOf textPriorityData (card "A") = NaN
  ∧ priorityOf textPriorityData (card "A") ≠ Num 0.
Proof. vm_compute. split; [done|]. split; [done|]. discriminate. Qed.

(** C1, at the same tables. [B] has priority 10 and [A] has a priority
    cell without a number. The comparator answers [NaN] for the pair in
    either order, [sort] reads that as a tie, and [A] stays in front of
    [B]: the list is not in descending order of priority, where the
    priority of [A] counts as [0]. *)
Theorem mobileCards_text_priority_order :
  mobileCards (Some textPriorityData) "All" = Normal [card "A"; card "B"]
  ∧ byPriority textPriorityData (card "A") (card "B") = NaN
  ∧ byPriority textPriorityData (card "B") (card "A") = NaN
  ∧ priorityValue textPriorityData (card "A") = 0
  ∧ priorityValue textPriorityData (card "B") = 10
  ∧ ¬ StableDescending (priorityValue textPriorityData)
        (filteredCards textPriorityData "All") [card "A"; card "B"].
Proof.
  repeat (split; [vm_compute; done|]).
  intros (_ & Hsorted & _).
  apply StronglySorted_cons in Hsorted as [Hab _].
  apply Forall_cons in Hab as [Hab _]. vm_compute in Hab. by apply Hab.
Qed.

(** With the card of priority [high] between priorities 5 and 10 the
    comparator is no longer a consistent one: [A] ties with [B] and with
    [C], and [B] does not tie with [C]. ECMAScript leaves the order to
    the engine then; the insertion order of [sort] leaves the three cards
    where they are, 5 in front of 10. *)
Example mobileCards_text_priority_between :
  mobileCards (Some mixedPriorityData) "All"
  = Normal [card "B"; card "A"; card "C"]
  ∧ priorityOf mixedPriorityData (card "B") = Num 5
  ∧ priorityOf mixedPriorityData (card "C") = Num 10.
Proof. vm_compute. done. Qed.

(** X9. Where every card that passes the filters has a priority that is
    a number, the list is these cards sorted by descending priority, and
    cards of equal priority keep the order of the card table. *)
Lemma mobileCards_sorted_stable (data : ParsedData) (segment : string) :
  partnersHaveStatus data →
  (∀ c, c ∈ filteredCards data segment → priorityOf data c ≠ NaN) →
  ∃ cards, mobileCards (Some data) segment = Normal cards
    ∧ StableDescending (priorityValue data) (filteredCards data segment) cards.
Proof.
  intros Hs Hnum. eexists. split; [by apply mobileCards_value|].
  apply sort_StableDescending. intros a b Ha Hb.
  unfold byPriority, priorityValue.
  pose proof (Hnum a Ha). pose proof (Hnum b Hb).
  by destruct (priorityOf data a), (priorityOf data b).
Qed.

Lemma mobileCards_sorted_stable_witness :
  ∃ cards, mobileCards (Some tiedPriorityData) "All" = Normal cards
    ∧ StableDescending (priorityValue tiedPriorityData)
        (filteredCards tiedPriorityData "All") cards.
Proof.
  apply (mobileCards_sorted_stable tiedPriorityData "All").
  - repeat constructor. by eexists.
  - intros c Hc.
    change (filteredCards tiedPriorityData "All")
      with [card "A"; card "B"; card "C"] in Hc.
    repeat (apply elem_of_cons in Hc as [-> | Hc]; [by vm_compute|]).
    by apply elem_of_nil in Hc.
Defined.

(** Priorities [5, 5, 10] in the order [A, B, C] give [C, A, B]. *)
Example mobileCards_tied_priorities :
  mobileCards (Some tiedPriorityData) "All"
  = Normal [card "C"; card "A"; card "B"].
Proof. vm_compute. done. Qed.

End MobileCardsClaims.

(** ** The parser and the views together *)

Section EndToEnd.

(** On [linkedGrid] the card is joined with its partner and listed for
    any segment. *)
Example linkedGrid_views :
  (λ row, (row !! "Config_ID", row !! "Partner_Name", row !! "Status",
           row !! "Priority", row !! "User_Segment"))
    <$> dashboardRows (Some (fetchData linkedGrid))
  = [(Some "C1", Some "Acme Bank", Some "Active", Some "0", Some "All")]
  ∧ mobileCards (Some (fetchData linkedGrid)) "anything"
    = Normal (cardUIConfig (fetchData linkedGrid))
  ∧ List.length (cardUIConfig (fetchData linkedGrid)) = 1%nat.
Proof. vm_compute. done. Qed.

(** On [sampleGrid] the card record has no [Partner_ID] property, no
    partner record is joined with it and the card list is empty. *)
Example sampleGrid_views :
  (λ row, (row !! "Config_ID", row !! "Partner_Name", row !! "Status",
           row !! "Priority", row !! "User_Segment"))
    <$> dashboardRows (Some (fetchData sampleGrid))
  = [(Some "C1", Some "Unknown", Some "INACTIVE", Some "0", Some "All")]
  ∧ mobileCards (Some (fetchData sampleGrid)) "anything" = Normal [].
Proof. vm_compute. done. Qed.

End EndToEnd.

(** ** More on the table-splitting loop *)

Section LoopInvariants.

Lemma tableOf_pushRecord (t t' : TableName) (obj : Object) (d : ParsedData) :
  tableOf t (pushRecord t' obj d)
  = (tableOf t d ++ (if decide (t = t') then [obj] else []))%list.
Proof. destruct t, t'; simpl; by rewrite ?app_nil_r. Qed.

(** What one row does to the tables. *)
Lemma processRow_tables (st : LoopState) (row : list string) :
  tables (processRow st row)
  = match currentTable st with
    | Some t =>
        if isDataRow row
        then pushRecord t (buildRecord (currentHeaders st) row) (tables st)
        else tables st
    | None => tables st
    end.
Proof.
  unfold processRow, isDataRow.
  destruct (isBlankRow row); simpl; [by destruct (currentTable st)|].
  destruct (detectHeader row) as [t|]; simpl.
  - by destruct (currentTable st).
  - by destruct (currentTable st).
Qed.

(** A property of the loop state that holds at the start and that every
    row keeps holds at the end. *)
Lemma processRows_invariant (P : LoopState → Prop) (st : LoopState)
    (rows : list (list string)) :
  P st → (∀ s row, P s → P (processRow s row)) → P (processRows st rows).
Proof.
  intros Hst Hstep. revert st Hst. unfold processRows.
  induction rows as [|row rows IH]; intros st Hst; simpl; [done|].
  apply IH. by apply Hstep.
Qed.

Lemma detectHeader_columns (row : list string) (t : TableName) :
  detectHeader row = Some t →
  firstCellOf row = Some (keyColumn t) ∧ signatureColumn t ∈ row.
Proof.
  intros Hd. pose proof (detectHeader_spec row) as (H1 & H2 & H3 & H4).
  destruct t; simpl;
    [apply H1 in Hd | apply H2 in Hd | apply H3 in Hd | apply H4 in Hd];
    naive_solver.
Qed.

Lemma header_columns_trimmed (row : list string) (t : TableName) :
  detectHeader row = Some t →
  keyColumn t ∈ trim <$> row ∧ signatureColumn t ∈ trim <$> row.
Proof.
  intros [Hk Hs]%detectHeader_columns. split.
  - unfold firstCellOf in Hk. destruct row as [|cell row]; [done|].
    simpl in Hk. injection Hk as <-. by left.
  - apply list_elem_of_fmap. exists (signatureColumn t).
    split; [by destruct t | done].
Qed.

Lemma buildRecord_is_Some (headers row : list string) (k : string) :
  k ∈ headers → k ≠ "" → k ≠ "__proto__" →
  is_Some (buildRecord headers row !! k).
Proof.
  intros Hin Hne Hproto. rewrite buildRecord_lookup.
  rewrite decide_False by naive_solver.
  destruct (lastIndexOf k headers) eqn:Hl; [by eexists|].
  by apply lastIndexOf_None in Hl.
Qed.

Lemma buildRecord_trimmed (headers row : list string) (k v : string) :
  Forall (λ h, trim h = h) headers →
  buildRecord headers row !! k = Some v →
  trim k = k ∧ k ≠ "" ∧ trim v = v.
Proof.
  intros Hh. rewrite buildRecord_lookup. case_decide as Hk; [done|].
  destruct (lastIndexOf k headers) as [i|] eqn:Hl; [|done].
  intros [= <-]. apply lastIndexOf_Some in Hl as [Hi _].
  split; [|split].
  - by eapply (Forall_lookup_1 _ _ _ _ Hh).
  - naive_solver.
  - rewrite cellValue_trim. destruct (row !! i); [apply trim_idemp | done].
Qed.

(** X1. The loop only ever appends: each of the four tables read from a
    grid begins with the table read from any shorter grid that the grid
    starts with. *)
Theorem fetchData_append_only (t : TableName) (pre rest : list (list string)) :
  tableOf t (fetchData pre) `prefix_of` tableOf t (fetchData (pre ++ rest)).
Proof.
  unfold fetchData. rewrite processRows_app.
  apply (processRows_invariant
           (λ s, tableOf t (tables (processRows initialState pre))
                 `prefix_of` tableOf t (tables s))); [done|].
  intros s row Hs. etrans; [exact Hs|].
  rewrite processRow_tables.
  destruct (currentTable s) as [t'|]; [|done].
  destruct (isDataRow row); [|done].
  rewrite tableOf_pushRecord. by apply prefix_app_r.
Qed.

(** X2. The four tables together hold at most as many records as the
    grid has rows that are neither blank nor header rows. *)
Theorem fetchData_record_count (rows : list (list string)) :
  (totalRecords (fetchData rows) ≤ List.length (List.filter isDataRow rows))%nat.
Proof.
  assert (∀ st, (totalRecords (tables (processRows st rows))
                 ≤ totalRecords (tables st)
                   + List.length (List.filter isDataRow rows))%nat) as Hgen.
  { unfold processRows.
    induction rows as [|row rows IH]; intros st; simpl; [lia|].
    etrans; [apply IH|]. rewrite processRow_tables.
    destruct (currentTable st) as [t|], (isDataRow row); simpl; try lia.
    destruct t; unfold totalRecords; simpl; rewrite length_app; simpl; lia. }
  apply (Hgen initialState).
Qed.

(** X3. A grid without a header row gives four empty tables. *)
Theorem fetchData_without_header (rows : list (list string)) :
  Forall (λ row, detectHeader row = None) rows →
  fetchData rows = emptyTables.
Proof.
  intros Hrows. unfold fetchData.
  by destruct (processRows_no_table initialState rows eq_refl Hrows) as [_ ->].
Qed.

Lemma fetchData_without_header_witness :
  fetchData [ ["P1"; "Acme Bank"; "Active"]; [""]; ["Config_ID"; "Title"] ]
  = emptyTables.
Proof.
  apply fetchData_without_header. repeat constructor.
Defined.

(** X4. Every record of a table has the table's key column and its
    signature column as properties: [Partner_ID] and [Partner_Name] in a
    partner record, [Config_ID] and [Card_Title] in a card record,
    [Config_ID] and [Hero_Banner_URL] in a product detail record,
    [Rule_ID] and [User_Segment] in a rule record. *)
Theorem fetchData_key_columns (rows : list (list string)) (t : TableName)
    (r : Object) :
  r ∈ tableOf t (fetchData rows) →
  is_Some (r !! keyColumn t) ∧ is_Some (r !! signatureColumn t).
Proof.
  revert t r. unfold fetchData.
  apply (processRows_invariant
    (λ s, (∀ t, currentTable s = Some t →
             keyColumn t ∈ currentHeaders s ∧ signatureColumn t ∈ currentHeaders s)
          ∧ ∀ t r, r ∈ tableOf t (tables s) →
              is_Some (r !! keyColumn t) ∧ is_Some (r !! signatureColumn t))).
  { split; [done|]. intros [] r Hr; by apply elem_of_nil in Hr. }
  intros s row [Hh Hr]. split.
  - intros t. unfold processRow.
    destruct (isBlankRow row); simpl; [done|].
    destruct (detectHeader row) as [t'|] eqn:Hd; simpl.
    + intros [= <-]. by apply header_columns_trimmed.
    + destruct (currentTable s) as [t'|] eqn:Ht; simpl; [|by rewrite Ht].
      intros [= <-]. by apply Hh.
  - intros t r. rewrite processRow_tables.
    destruct (currentTable s) as [t'|] eqn:Ht; [|apply Hr].
    destruct (isDataRow row); [|apply Hr].
    rewrite tableOf_pushRecord. intros [Hin | Hin]%elem_of_app; [by apply Hr|].
    case_decide as Heq; [|by apply elem_of_nil in Hin].
    apply list_elem_of_singleton in Hin as ->. subst t'.
    destruct (Hh t eq_refl) as [Hk Hs].
    split; apply buildRecord_is_Some; try done; by destruct t.
Qed.

Lemma fetchData_key_columns_witness :
  is_Some (buildRecord ["Rule_ID"; "User_Segment"] ["R1"]
             !! keyColumn Display_Rules)
  ∧ is_Some (buildRecord ["Rule_ID"; "User_Segment"] ["R1"]
               !! signatureColumn Display_Rules).
Proof.
  apply (fetchData_key_columns [ [" Rule_ID"; "User_Segment"]; ["R1"] ]).
  apply (bool_decide_unpack _). vm_compute. reflexivity.
Defined.

Lemma parsed_records_trimmed (rows : list (list string)) (t : TableName)
    (r : Object) (k v : string) :
  r ∈ tableOf t (fetchData rows) →
  r !! k = Some v →
  trim k = k ∧ k ≠ "" ∧ trim v = v.
Proof.
  revert t r k v. unfold fetchData.
  apply (processRows_invariant
    (λ s, Forall (λ h, trim h = h) (currentHeaders s)
          ∧ ∀ t r k v, r ∈ tableOf t (tables s) → r !! k = Some v →
              trim k = k ∧ k ≠ "" ∧ trim v = v)).
  { split; [constructor|]. intros [] r k v Hr; by apply elem_of_nil in Hr. }
  intros s row [Hh Hr]. split.
  - unfold processRow.
    destruct (isBlankRow row); simpl; [done|].
    destruct (detectHeader row) as [t'|]; simpl.
    + apply Forall_fmap, Forall_forall. intros cell _. apply trim_idemp.
    + by destruct (currentTable s).
  - intros t r k v. rewrite processRow_tables.
    destruct (currentTable s) as [t'|]; [|apply Hr].
    destruct (isDataRow row); [|apply Hr].
    rewrite tableOf_pushRecord.
    intros [Hin | Hin]%elem_of_app; [by apply (Hr t)|].
    case_decide; [|by apply elem_of_nil in Hin].
    apply list_elem_of_singleton in Hin as ->. by apply buildRecord_trimmed.
Qed.

(** X5. The records hold trimmed text only: every property name of
    every record is a non-empty text without white space at either end,
    and every property value is a text, possibly empty, without white
    space at either end. *)
Theorem fetchData_trimmed (rows : list (list string)) (t : TableName)
    (r : Object) (k v : string) :
  r ∈ tableOf t (fetchData rows) →
  r !! k = Some v →
  trim k = k ∧ k ≠ "" ∧ trim v = v.
Proof. apply parsed_records_trimmed. Qed.

Lemma fetchData_trimmed_witness :
  trim "Partner_Name" = "Partner_Name" ∧ "Partner_Name" ≠ ""
  ∧ trim "Acme Bank" = "Acme Bank".
Proof.
  apply (fetchData_trimmed
           [ ["Partner_ID "; "Partner_Name"]; [" P1"; "  Acme Bank "] ]
           Partner_Master
           {[ "Partner_ID" := "P1"; "Partner_Name" := "Acme Bank" ]}).
  - apply (bool_decide_unpack _). vm_compute. reflexivity.
  - reflexivity.
Defined.

(** X6. Which table a header row introduces depends on its first cell
    and on which cells occur in the rest of the row, not on where they
    stand: rearranging the cells after the first changes nothing. *)
Theorem detectHeader_cell_order (c : string) (cells1 cells2 : list string) :
  cells1 ≡ₚ cells2 →
  detectHeader (c :: cells1) = detectHeader (c :: cells2).
Proof.
  intros Hp.
  assert (∀ name, includes (c :: cells1) name = includes (c :: cells2) name)
    as Hinc.
  { intros name. unfold includes. apply bool_decide_ext. by rewrite Hp. }
  unfold detectHeader. by rewrite !Hinc.
Qed.

Lemma detectHeader_cell_order_witness :
  detectHeader ["Rule_ID"; "Priority"; "User_Segment"; "Config_ID"]
  = detectHeader ["Rule_ID"; "Config_ID"; "User_Segment"; "Priority"].
Proof.
  apply detectHeader_cell_order.
  apply (Permutation_trans (perm_swap _ _ _)).
  apply (Permutation_trans (perm_skip _ (perm_swap _ _ _))).
  apply perm_swap.
Defined.

Lemma processRows_data_rows (s : LoopState) (t : TableName)
    (rest : list (list string)) :
  currentTable s = Some t →
  Forall (λ row, isDataRow row = true) rest →
  currentTable (processRows s rest) = Some t
  ∧ currentHeaders (processRows s rest) = currentHeaders s
  ∧ ∀ t', tableOf t' (tables (processRows s rest))
          = (tableOf t' (tables s)
             ++ (if decide (t' = t)
                 then buildRecord (currentHeaders s) <$> rest else []))%list.
Proof.
  intros Ht Hrest. revert s Ht.
  induction Hrest as [|row rest Hrow _ IH]; intros s Ht.
  - split; [done|]. split; [done|]. intros t'.
    unfold processRows. simpl. case_decide; by rewrite app_nil_r.
  - unfold isDataRow in Hrow. apply andb_true_iff in Hrow as [Hb Hd].
    apply negb_true_iff in Hb. apply bool_decide_eq_true in Hd.
    unfold processRows in *. simpl.
    rewrite (processRow_data s row t Hb Hd Ht).
    destruct (IH (mkLoopState (Some t) (currentHeaders s)
                    (pushRecord t (buildRecord (currentHeaders s) row)
                       (tables s))) eq_refl) as (H1 & H2 & H3).
    split; [done|]. split; [done|]. intros t'.
    rewrite H3. simpl. rewrite tableOf_pushRecord.
    case_decide; by rewrite <- ?app_assoc, ?app_nil_r.
Qed.

(** X7. A header row for [t] followed by rows that are neither blank nor
    header rows appends one record per row to table [t], built under
    that header and in the order of the rows, and leaves the other three
    tables as they were. *)
Theorem header_then_data_rows (st : LoopState) (hdr : list string)
    (t : TableName) (rest : list (list string)) :
  detectHeader hdr = Some t →
  Forall (λ row, isDataRow row = true) rest →
  ∀ t', tableOf t' (tables (processRows st (hdr :: rest)))
        = (tableOf t' (tables st)
           ++ (if decide (t' = t)
               then buildRecord (trim <$> hdr) <$> rest else []))%list.
Proof.
  intros Hh Hrest t'.
  change (processRows st (hdr :: rest))
    with (processRows (processRow st hdr) rest).
  rewrite (processRow_header st hdr t Hh).
  by destruct (processRows_data_rows
                 (mkLoopState (Some t) (trim <$> hdr) (tables st)) t rest
                 eq_refl Hrest) as (_ & _ & ->).
Qed.

Lemma header_then_data_rows_witness :
  displayRules
    (fetchData [ ["Rule_ID"; "Config_ID"; "User_Segment"];
                 ["R1"; "C1"; "All"]; ["R2"; "C2"] ])
  = [ buildRecord ["Rule_ID"; "Config_ID"; "User_Segment"] ["R1"; "C1"; "All"];
      buildRecord ["Rule_ID"; "Config_ID"; "User_Segment"] ["R2"; "C2"] ].
Proof.
  apply (header_then_data_rows initialState
           ["Rule_ID"; "Config_ID"; "User_Segment"] Display_Rules
           [ ["R1"; "C1"; "All"]; ["R2"; "C2"] ] eq_refl
           ltac:(repeat constructor) Display_Rules).
Defined.

Lemma processRows_after_blank (d0 : ParsedData) (s1 s2 : LoopState)
    (rows : list (list string)) :
  currentTable s1 = currentTable s2 →
  (is_Some (currentTable s1) → currentHeaders s1 = currentHeaders s2) →
  (∀ t, tableOf t (tables s1) = (tableOf t d0 ++ tableOf t (tables s2))%list) →
  ∀ t, tableOf t (tables (processRows s1 rows))
       = (tableOf t d0 ++ tableOf t (tables (processRows s2 rows)))%list.
Proof.
  revert s1 s2. unfold processRows.
  induction rows as [|row rows IH]; intros s1 s2 Ht Hh Hd; simpl; [done|].
  apply IH.
  - unfold processRow. destruct (isBlankRow row); [done|].
    destruct (detectHeader row); [done|].
    destruct (currentTable s1) eqn:E1, (currentTable s2) eqn:E2; simpl;
      congruence.
  - unfold processRow. destruct (isBlankRow row); simpl; [by intros [? ?]|].
    destruct (detectHeader row); [done|].
    destruct (currentTable s1) eqn:E1, (currentTable s2) eqn:E2; simpl;
      try congruence.
    + intros _. apply Hh. by eexists.
    + rewrite E1. by intros [? ?].
  - intros t. rewrite !processRow_tables, <- Ht.
    destruct (currentTable s1) as [t'|] eqn:E; [|apply Hd].
    destruct (isDataRow row); [|apply Hd].
    rewrite !tableOf_pushRecord, Hd, <- Hh by (by eexists).
    by rewrite app_assoc.
Qed.

(** X19. A blank row makes what follows independent of what came
    before: each table read from a grid with a blank row in it is the
    table read from the rows before the blank row followed by the table
    read from the rows after it. *)
Theorem fetchData_blank_row_splits
    (rows1 : list (list string)) (sep : list string)
    (rows2 : list (list string)) (t : TableName) :
  blankRow sep →
  tableOf t (fetchData (rows1 ++ sep :: rows2))
  = (tableOf t (fetchData rows1) ++ tableOf t (fetchData rows2))%list.
Proof.
  intros Hb%isBlankRow_spec. unfold fetchData.
  rewrite processRows_app.
  change (processRows (processRows initialState rows1) (sep :: rows2))
    with (processRows (processRow (processRows initialState rows1) sep) rows2).
  rewrite (processRow_blank _ sep Hb).
  apply processRows_after_blank; simpl.
  - done.
  - by intros [? ?].
  - intros t'. destruct t'; simpl; by rewrite app_nil_r.
Qed.

Lemma fetchData_blank_row_splits_witness :
  partnerMaster
    (fetchData ([ ["Partner_ID"; "Partner_Name"]; ["P1"; "Acme"] ]
                ++ [""; " "] :: [ ["P2"; "Orphan"];
                                 ["Partner_ID"; "Partner_Name"]; ["P3"; "Bank"] ]))
  = (partnerMaster (fetchData [ ["Partner_ID"; "Partner_Name"]; ["P1"; "Acme"] ])
     ++ partnerMaster
          (fetchData [ ["P2"; "Orphan"]; ["Partner_ID"; "Partner_Name"];
                       ["P3"; "Bank"] ]))%list.
Proof.
  apply (fetchData_blank_row_splits
           [ ["Partner_ID"; "Partner_Name"]; ["P1"; "Acme"] ] [""; " "]
           [ ["P2"; "Orphan"]; ["Partner_ID"; "Partner_Name"]; ["P3"; "Bank"] ]
           Partner_Master).
  apply isBlankRow_spec. reflexivity.
Defined.

End LoopInvariants.

(** ** More on the two views *)

Section ViewFacts.

Lemma FirstMatch_Some_inv {A : Type} (P : A → Prop) (l : list A) (x : A) :
  FirstMatch P l (Some x) →
  ∃ pre post, l = (pre ++ x :: post)%list ∧ Forall (λ y, ¬ P y) pre ∧ P x.
Proof. inversion 1; subst; eauto. Qed.

Lemma FirstMatch_None_inv {A : Type} (P : A → Prop) (l : list A) :
  FirstMatch P l None → Forall (λ y, ¬ P y) l.
Proof. by inversion 1. Qed.

Lemma joined_nonempty (o : option Object) (key dflt : string) :
  dflt ≠ "" → joined o key dflt ≠ "".
Proof.
  intros Hd. unfold joined. destruct o as [obj|]; [|done].
  destruct (obj !! key) as [v|]; [|done]. by case_decide.
Qed.

Lemma sort_ties {A : Type} (cmp : A → A → Number) (l : list A) :
  (∀ a b, a ∈ l → b ∈ l → sortCompare cmp a b = 0) →
  sort cmp l = l.
Proof.
  induction l as [|x l IH]; intros Hc; simpl; [done|].
  rewrite IH by (intros a b Ha Hb; apply Hc; by right).
  destruct l as [|y l]; simpl; [done|].
  rewrite Hc; [done | by left | by right; left].
Qed.

Lemma List_filter_sublist {A : Type} (q : A → bool) (l : list A) :
  List.filter q l `sublist_of` l.
Proof.
  induction l as [|x l IH]; simpl; [done|].
  destruct (q x); by constructor.
Qed.

(** X8. The card list cannot be computed exactly when some partner
    record has no [Status] property: the call then raises, whatever the
    cards, the rules and the segment are, and otherwise it returns. *)
Theorem mobileCards_raises_iff (data : ParsedData) (segment : string) :
  (∃ p, p ∈ partnerMaster data ∧ p !! "Status" = None)
  ↔ ∃ msg, mobileCards (Some data) segment = Throw msg.
Proof.
  pose proof (mobileCards_returns data segment) as Hret.
  split.
  - intros (p & Hp & Hst).
    destruct (mobileCards (Some data) segment) as [cards|msg] eqn:E; [|eauto].
    assert (partnersHaveStatus data) as Hs by (apply Hret; eauto).
    unfold partnersHaveStatus in Hs. rewrite Forall_forall in Hs.
    destruct (Hs p Hp) as [status Hstatus]. congruence.
  - intros [msg Hmsg].
    destruct (decide (Exists (λ p, p !! "Status" = None) (partnerMaster data)))
      as [Hex | Hnex].
    + apply Exists_exists in Hex. naive_solver.
    + apply not_Exists_Forall in Hnex; [|apply _].
      assert (partnersHaveStatus data) as Hs.
      { eapply Forall_impl; [exact Hnex|]. simpl. intros p Hp.
        destruct (p !! "Status"); [by eexists | done]. }
      apply Hret in Hs as [cards Hc]. congruence.
Qed.

Lemma mobileCards_raises_iff_witness :
  ∃ msg,
    mobileCards
      (Some (mkParsedData [ {[ "Partner_ID" := "P1"; "Partner_Name" := "Acme" ]} ]
               [card "C1"] [] []))
      "All" = Throw msg.
Proof.
  apply (proj1 (mobileCards_raises_iff
                  (mkParsedData
                     [ {[ "Partner_ID" := "P1"; "Partner_Name" := "Acme" ]} ]
                     [card "C1"] [] [])
                  "All")).
  exists {[ "Partner_ID" := "P1"; "Partner_Name" := "Acme" ]}.
  split; [by left | reflexivity].
Defined.

(** X10. The card list never holds anything but card records: it is a
    rearrangement of a selection from the card table that keeps the
    table's order and takes no record more often than the table has it. *)
Theorem mobileCards_selection (data : ParsedData) (segment : string)
    (cards : list Object) :
  mobileCards (Some data) segment = Normal cards →
  ∃ selected, cards ≡ₚ selected
    ∧ selected `sublist_of` cardUIConfig data
    ∧ (List.length cards ≤ List.length (cardUIConfig data))%nat.
Proof.
  intros Hc.
  assert (partnersHaveStatus data) as Hs
    by (apply (mobileCards_returns _ segment); eauto).
  rewrite (mobileCards_value _ _ Hs) in Hc. injection Hc as <-.
  assert (filteredCards data segment `sublist_of` cardUIConfig data) as Hsub.
  { unfold filteredCards. etrans; apply List_filter_sublist. }
  exists (filteredCards data segment).
  split; [apply sort_perm|]. split; [done|].
  rewrite (Permutation_length (sort_perm _ _)). by apply sublist_length.
Qed.

Lemma mobileCards_selection_witness :
  ∃ selected, [card "C"; card "A"; card "B"] ≡ₚ selected
    ∧ selected `sublist_of` [card "A"; card "B"; card "C"]
    ∧ (3 ≤ 3)%nat.
Proof.
  apply (mobileCards_selection tiedPriorityData "All").
  vm_compute. reflexivity.
Defined.

(** X11. A card that is listed for the segment ["All"] is listed for
    every segment. *)
Theorem mobileCards_All_everywhere (data : ParsedData) (segment : string)
    (cardsAll cards : list Object) (c : Object) :
  mobileCards (Some data) "All" = Normal cardsAll →
  mobileCards (Some data) segment = Normal cards →
  c ∈ cardsAll → c ∈ cards.
Proof.
  intros HA Hs.
  rewrite (elem_of_mobileCards _ _ _ _ HA), (elem_of_mobileCards _ _ _ _ Hs).
  unfold segmentEligible. naive_solver.
Qed.

Lemma mobileCards_All_everywhere_witness :
  card "A" ∈ [card "C"; card "A"; card "B"].
Proof.
  apply (mobileCards_All_everywhere tiedPriorityData "New User"
           [card "C"; card "A"; card "B"] [card "C"; card "A"; card "B"]).
  - vm_compute. reflexivity.
  - vm_compute. reflexivity.
  - apply (bool_decide_unpack _). vm_compute. reflexivity.
Defined.

(** X12. When the cards that pass the two filters all have the same
    priority, be it a number or [NaN], the list is these cards in the
    order of the card table; this is so in particular when there is no
    rule record at all. *)
Theorem mobileCards_equal_priorities (data : ParsedData) (segment : string) :
  partnersHaveStatus data →
  (∀ a b, a ∈ filteredCards data segment → b ∈ filteredCards data segment →
          priorityOf data a = priorityOf data b) →
  mobileCards (Some data) segment = Normal (filteredCards data segment)
  ∧ (displayRules data = [] →
     filteredCards data segment
     = List.filter (activeGate data) (cardUIConfig data)).
Proof.
  intros Hs Heq. split.
  - rewrite (mobileCards_value _ _ Hs). f_equal. apply sort_ties.
    intros a b Ha Hb. unfold sortCompare, byPriority.
    rewrite (Heq a b Ha Hb). destruct (priorityOf data b); simpl; [done | lia].
  - intros Hnil. unfold filteredCards.
    induction (List.filter (activeGate data) (cardUIConfig data)) as [|c l IH];
      simpl; [done|].
    unfold matchesSegment at 1. rewrite Hnil. simpl. by rewrite IH.
Qed.

Lemma mobileCards_equal_priorities_witness :
  mobileCards (Some (mkParsedData [activePartner] [card "B"; card "A"] [] []))
              "New User"
  = Normal [card "B"; card "A"].
Proof.
  apply (mobileCards_equal_priorities
           (mkParsedData [activePartner] [card "B"; card "A"] [] [])
           "New User").
  - repeat constructor. by eexists.
  - intros a b _ _. reflexivity.
Defined.

End ViewFacts.

(** ** The dashboard badge, the priority text and the benefit list *)

Section RenderingFacts.

Lemma findPartner_Some (data : ParsedData) (config p : Object) :
  findPartner data config = Some p →
  ∃ pre post, partnerMaster data = (pre ++ p :: post)%list
    ∧ Forall (λ q, q !! "Partner_ID" ≠ config !! "Partner_ID") pre
    ∧ p !! "Partner_ID" = config !! "Partner_ID".
Proof.
  intros Hf. pose proof (findPartner_first data config) as H.
  rewrite Hf in H. by apply FirstMatch_Some_inv in H.
Qed.

Lemma eqIgnoreCase_active_nonempty (status : string) :
  eqIgnoreCase status "active" = true → status ≠ "".
Proof. by destruct status. Qed.

(** X13. Every dashboard row has the four joined columns, none of them
    empty; so the status badge, which calls [toUpperCase] on the row's
    [Status], is computed without raising for every row, also for tables
    on which the card list raises. *)
Theorem dashboardRows_badge_defined (data : ParsedData) (row : Object) :
  row ∈ dashboardRows (Some data) →
  (∀ k, k ∈ ["Partner_Name"; "Status"; "Priority"; "User_Segment"] →
        ∃ v, row !! k = Some v ∧ v ≠ "")
  ∧ ∃ b, statusBadgeActive row = Normal b.
Proof.
  simpl. intros (config & -> & _)%list_elem_of_fmap. split.
  - intros k Hk. rewrite dashboardRow_lookup.
    repeat (apply elem_of_cons in Hk as [-> | Hk];
            [repeat (case_decide; try done);
             eexists; split; [done | by apply joined_nonempty] |]).
    by apply elem_of_nil in Hk.
  - unfold statusBadgeActive. rewrite dashboardRow_lookup. simpl. eauto.
Qed.

Lemma dashboardRows_badge_defined_witness :
  ∃ b, statusBadgeActive
         (dashboardRow
            (mkParsedData [ {[ "Partner_ID" := "P1" ]} ] [card "C1"] [] [])
            (card "C1")) = Normal b.
Proof.
  apply (dashboardRows_badge_defined
           (mkParsedData [ {[ "Partner_ID" := "P1" ]} ] [card "C1"] [] [])).
  simpl. by left.
Defined.

(** X14. The badge of a dashboard row and the status filter of the card
    list. A row with the active badge belongs to a card that passes the
    status filter. The converse holds when no two partner records share
    a [Partner_ID]; with shared ids the badge follows the first such
    partner and the filter any of them. *)
Theorem badge_and_status_filter (data : ParsedData) (i : nat)
    (config row : Object) :
  cardUIConfig data !! i = Some config →
  dashboardRows (Some data) !! i = Some row →
  (statusBadgeActive row = Normal true → hasActivePartner data config)
  ∧ (uniquePartnerIds data → hasActivePartner data config →
     statusBadgeActive row = Normal true).
Proof.
  intros Hi Hrow. simpl in Hrow. rewrite list_lookup_fmap, Hi in Hrow.
  injection Hrow as <-.
  unfold statusBadgeActive. rewrite dashboardRow_lookup. simpl. split.
  - intros [= Hb]. apply bool_decide_eq_true in Hb.
    destruct (findPartner data config) as [p|] eqn:Hf; [|done].
    apply findPartner_Some in Hf as (pre & post & Hl & _ & Hid).
    simpl in Hb. destruct (p !! "Status") as [status|] eqn:Hst; [|done].
    case_decide; [done|].
    exists p, status. split; [rewrite Hl; set_solver|].
    split; [done|]. split; [done|]. by apply active_eqIgnoreCase.
  - intros Huniq (p0 & s0 & Hp0 & Hid0 & Hst0 & Ha0).
    pose proof (findPartner_first data config) as Hfirst.
    destruct (findPartner data config) as [p|] eqn:Hf.
    + apply FirstMatch_Some_inv in Hfirst as (pre & post & Hl & Hpre & Hid).
      assert (p0 = p) as ->.
      { unfold uniquePartnerIds in Huniq. rewrite Hl in Hp0, Huniq.
        apply elem_of_app in Hp0 as [Hin | Hin].
        - rewrite Forall_forall in Hpre. by destruct (Hpre p0 Hin).
        - apply elem_of_cons in Hin as [-> | Hin]; [done|].
          rewrite fmap_app, fmap_cons in Huniq.
          apply NoDup_app in Huniq as (_ & _ & Huniq).
          apply NoDup_cons in Huniq as [Hnot _]. exfalso. apply Hnot.
          apply list_elem_of_fmap. exists p0. split; [congruence | done]. }
      simpl. rewrite Hst0.
      rewrite decide_False by by apply eqIgnoreCase_active_nonempty.
      f_equal. by apply bool_decide_eq_true, active_eqIgnoreCase.
    + apply FirstMatch_None_inv in Hfirst. rewrite Forall_forall in Hfirst.
      by destruct (Hfirst p0 Hp0).
Qed.

Lemma badge_and_status_filter_witness :
  hasActivePartner (fetchData linkedGrid)
    (buildRecord
       ["Config_ID"; "Partner_ID"; "Card_Title"; "Card_Subtitle"; "Benefit_1";
        "CTA_Label_Card"]
       ["C1"; "P1"; "Acme Gold"; "Cashback 5%"; "Free shipping"; "Open now"]).
Proof.
  apply (badge_and_status_filter (fetchData linkedGrid) 0 _
           (dashboardRow (fetchData linkedGrid)
              (buildRecord
                 ["Config_ID"; "Partner_ID"; "Card_Title"; "Card_Subtitle";
                  "Benefit_1"; "CTA_Label_Card"]
                 ["C1"; "P1"; "Acme Gold"; "Cashback 5%"; "Free shipping";
                  "Open now"]))).
  - reflexivity.
  - reflexivity.
  - vm_compute. reflexivity.
Defined.

(** With two partner records of one id the badge and the filter part
    ways: the first record is inactive, the second active. *)
Example badge_and_status_filter_shared_id :
  let data :=
    mkParsedData
      [ {[ "Partner_ID" := "P1"; "Status" := "Inactive" ]};
        {[ "Partner_ID" := "P1"; "Status" := "Active" ]} ]
      [card "C1"] [] [] in
  statusBadgeActive (dashboardRow data (card "C1")) = Normal false
  ∧ mobileCards (Some data) "All" = Normal [card "C1"].
Proof. vm_compute. done. Qed.

Lemma readDigits_Some (acc : Z) (s : string) : is_Some (readDigits (Some acc) s).
Proof.
  revert acc. induction s as [|c r IH]; intros acc; simpl; [by eexists|].
  destruct (isDigit c); [apply IH | by eexists].
Qed.

Lemma readDigits_None (s : string) :
  readDigits None s = None
  ↔ match s with String d _ => isDigit d = false | EmptyString => True end.
Proof.
  destruct s as [|d r]; simpl; [done|].
  destruct (isDigit d); [|done].
  destruct (readDigits_Some (10 * 0 + digitValue d) r) as [z Hz].
  simpl in *. rewrite Hz. split; done.
Qed.

Lemma parseInt10_sign (c : ascii) (r : string) :
  match String c r with
  | String "-" r' => (-1, r')
  | String "+" r' => (1, r')
  | _ => (1, String c r)
  end
  = if bool_decide (c = "-"%char ∨ c = "+"%char)
    then (if bool_decide (c = "-"%char) then -1 else 1, r)
    else (1, String c r).
Proof. destruct c as [[] [] [] [] [] [] [] []]; reflexivity. Qed.

Lemma parseInt10_NaN (text : string) :
  parseInt10 text = NaN ↔ startsWithNumber text = false.
Proof.
  unfold parseInt10, startsWithNumber.
  destruct (trimStart text) as [|c r]; [done|].
  rewrite parseInt10_sign.
  destruct (bool_decide (c = "-"%char ∨ c = "+"%char)).
  - pose proof (readDigits_None r) as Hr.
    destruct (readDigits None r) as [z|]; destruct r as [|d r']; naive_solver.
  - pose proof (readDigits_None (String c r)) as Hr.
    destruct (readDigits None (String c r)) as [z|]; naive_solver.
Qed.

(** X15. The priority of a card is [NaN] exactly when its first rule has
    a [Priority] text that is not empty and that, after leading white
    space and one optional sign, does not go on with a digit. In every
    other case it is a number. *)
Theorem priorityOf_NaN_iff (data : ParsedData) (c : Object) :
  priorityOf data c = NaN
  ↔ ∃ r text, findRule data c = Some r
      ∧ r !! "Priority" = Some text
      ∧ text ≠ ""
      ∧ startsWithNumber text = false.
Proof.
  unfold priorityOf. split.
  - destruct (findRule data c) as [r|]; simpl; [|done].
    destruct (r !! "Priority") as [text|] eqn:Hp; simpl; [|done].
    destruct (truthy text) eqn:Ht; [|done].
    intros Hn. exists r, text. apply truthy_true in Ht.
    by rewrite <- parseInt10_NaN.
  - intros (r & text & -> & Hp & Hne & Hs). simpl. rewrite Hp. simpl.
    apply truthy_true in Hne. rewrite Hne. by apply parseInt10_NaN.
Qed.

Lemma priorityOf_NaN_iff_witness :
  priorityOf textPriorityData (card "A") = NaN.
Proof.
  apply (proj2 (priorityOf_NaN_iff textPriorityData (card "A"))).
  exists (rule "R1" "A" "All" "high"), "high".
  split; [reflexivity|]. split; [reflexivity|]. split; [discriminate|].
  reflexivity.
Defined.

(** X16. The benefit list of a card has at most three entries, each a
    text that is not empty; for a card record read from a grid a benefit
    cell of white space only is therefore left out, and each entry shown
    is trimmed. *)
Theorem benefits_not_blank (rows : list (list string)) (c : Object)
    (b : option string) :
  c ∈ cardUIConfig (fetchData rows) →
  b ∈ benefits c →
  (List.length (benefits c) ≤ 3)%nat
  ∧ ∃ text, b = Some text ∧ text ≠ "" ∧ trim text = text.
Proof.
  intros Hc Hb. split.
  { unfold benefits. etrans; [apply sublist_length, List_filter_sublist|]. done. }
  unfold benefits in Hb. apply elem_of_List_filter in Hb as [Hin Ht].
  destruct b as [text|]; [|done]. exists text. split; [done|].
  split; [by apply truthy_true|].
  assert (∃ k, c !! k = Some text) as [k Hk].
  { repeat (apply elem_of_cons in Hin as [Hin | Hin]; [eauto|]).
    by apply elem_of_nil in Hin. }
  by apply (parsed_records_trimmed rows Card_UI_Config c k text).
Qed.

Lemma benefits_not_blank_witness :
  ∃ text, Some "Free shipping" = Some text ∧ text ≠ "" ∧ trim text = text.
Proof.
  apply (benefits_not_blank linkedGrid
           (buildRecord
              ["Config_ID"; "Partner_ID"; "Card_Title"; "Card_Subtitle";
               "Benefit_1"; "CTA_Label_Card"]
              ["C1"; "P1"; "Acme Gold"; "Cashback 5%"; "Free shipping";
               "Open now"])
           (Some "Free shipping")).
  - apply (bool_decide_unpack _). vm_compute. reflexivity.
  - apply (bool_decide_unpack _). vm_compute. reflexivity.
Defined.

End RenderingFacts.

(** ** The preview: which screens can be reached *)

Section Preview.

Lemma find_is_Some {A : Type} (p : A → bool) (l : list A) (x : A) :
  x ∈ l → p x = true → is_Some (List.find p l).
Proof.
  intros Hin Hp. induction Hin as [x l | x y l _ IH]; simpl.
  - rewrite Hp. by eexists.
  - destruct (p y); [by eexists | auto].
Qed.

Lemma propEq_ofProp (p : option string) : propEq p (ofProp p) = true.
Proof. destruct p; simpl; by apply strictEq_spec. Qed.

Lemma mobileView_DetailView (data : ParsedData) (cards : list Object)
    (st : UIState) (c d : Object) :
  mobileView data cards st = DetailView c d →
  mobileScreen st = Detail
  ∧ truthyValue (activeCardId st) = true
  ∧ findCard data (activeCardId st) = Some c
  ∧ findDetail data (activeCardId st) = Some d.
Proof.
  unfold mobileView.
  destruct (mobileScreen st), (truthyValue (activeCardId st)),
    (findCard data (activeCardId st)), (findDetail data (activeCardId st));
    intros [=]; by subst.
Qed.

Lemma mobileView_StepsView (data : ParsedData) (cards : list Object)
    (st : UIState) (c d : Object) :
  mobileView data cards st = StepsView c d → mobileScreen st = Steps.
Proof.
  unfold mobileView.
  destruct (mobileScreen st), (truthyValue (activeCardId st)),
    (findCard data (activeCardId st)), (findDetail data (activeCardId st));
    by intros [=].
Qed.

Lemma uiStep_invariant (data : ParsedData) (st st' : UIState) :
  previewInvariant data st → uiStep data st st' → previewInvariant data st'.
Proof.
  intros [Hactive Hsteps] Hstep. unfold previewInvariant.
  destruct Hstep as [st cards segment Hc Hs | st cards row Hc Hr
                    | st cards c Hc Hv Hin | st cards c d Hc Hv
                    | st cards c d Hc Hv | st cards c d Hc Hv]; simpl.
  - done.
  - split; done.
  - split; [|done]. intros _. exists c.
    apply (elem_of_mobileCards _ _ _ _ Hc) in Hin as (Hin & Ha & _). done.
  - split; done.
  - apply mobileView_DetailView in Hv as (Hd & Ht & Hfc & Hfd).
    split; simpl.
    + intros _. apply Hactive. by rewrite Hd.
    + intros _. by rewrite Ht, Hfc, Hfd.
  - apply mobileView_StepsView in Hv.
    split; simpl; [|done]. intros _. apply Hactive. by rewrite Hv.
Qed.

Lemma reachable_invariant (data : ParsedData) (st : UIState) :
  rtc (uiStep data) initialUI st → previewInvariant data st.
Proof.
  revert st. apply rtc_ind_r.
  - split; done.
  - intros st st' _ Hstep IH. by eapply uiStep_invariant.
Qed.

(** X17. Whatever is clicked, the steps screen is never without content:
    in every state that clicks can reach with [mobileScreen] at [steps],
    the card and the product detail record of [activeCardId] are both
    found, so the [return null] of line 570 is never taken. *)
Theorem steps_screen_never_empty (data : ParsedData) (st : UIState)
    (cards : list Object) :
  rtc (uiStep data) initialUI st →
  mobileScreen st = Steps →
  ∃ c d, mobileView data cards st = StepsView c d.
Proof.
  intros Hr Hs.
  destruct (reachable_invariant data st Hr) as [_ Hsteps].
  destruct (Hsteps Hs) as (Ht & [c Hc] & [d Hd]).
  exists c, d. unfold mobileView. by rewrite Hs, Ht, Hc, Hd.
Qed.

Lemma steps_screen_never_empty_witness :
  ∃ c d, mobileView previewData [card "C1"]
           (mkUIState Null "All" Steps (Str "C1")) = StepsView c d.
Proof.
  apply steps_screen_never_empty; [|reflexivity].
  eapply rtc_l.
  { apply (click_card previewData initialUI [card "C1"] (card "C1"));
      [reflexivity | reflexivity | by left]. }
  eapply rtc_l; [|apply rtc_refl].
  apply (click_detail_cta previewData
           (mkUIState Null "All" Detail (Str "C1")) [card "C1"]
           (card "C1")
           {[ "Config_ID" := "C1"; "Hero_Banner_URL" := "hero.png" ]});
    reflexivity.
Defined.

(** X18. On the detail screen [activeCardId] is always the [Config_ID]
    of a card record of an active partner. When that id is a text that
    is not empty, the card lookup of line 485 succeeds, so the message
    [Config not found] is shown exactly when no product detail record
    has the id; when the id is empty or undefined none of the three
    screens is shown. *)
Theorem detail_screen_card_found (data : ParsedData) (st : UIState)
    (cards : list Object) :
  rtc (uiStep data) initialUI st →
  mobileScreen st = Detail →
  (∃ c, c ∈ cardUIConfig data ∧ hasActivePartner data c
        ∧ activeCardId st = ofProp (c !! "Config_ID"))
  ∧ (truthyValue (activeCardId st) = true →
     is_Some (findCard data (activeCardId st))
     ∧ (mobileView data cards st = ConfigNotFound
        ↔ findDetail data (activeCardId st) = None))
  ∧ (truthyValue (activeCardId st) = false →
     mobileView data cards st = NoScreen).
Proof.
  intros Hr Hd.
  destruct (reachable_invariant data st Hr) as [Hactive _].
  destruct Hactive as (c & Hc & Ha & Hid); [by rewrite Hd|].
  split; [eauto|]. unfold mobileView. rewrite Hd. split.
  - intros Ht. rewrite Ht.
    assert (is_Some (findCard data (activeCardId st))) as [c' Hc'].
    { unfold findCard. apply (find_is_Some _ _ c Hc).
      rewrite Hid. apply propEq_ofProp. }
    split; [by eexists|]. rewrite Hc'.
    destruct (findDetail data (activeCardId st)); split; done.
  - by intros ->.
Qed.

Lemma detail_screen_card_found_witness :
  is_Some (findCard previewData (Str "C1")).
Proof.
  apply (detail_screen_card_found previewData
           (mkUIState Null "All" Detail (Str "C1")) []);
    [|reflexivity|reflexivity].
  eapply rtc_l; [|apply rtc_refl].
  apply (click_card previewData initialUI [card "C1"] (card "C1"));
    [reflexivity | reflexivity | by left].
Defined.

(** A listed card whose [Config_ID] cell is empty leads to a state in
    which the phone shows none of its screens. *)
Example empty_config_id_blank_screen :
  let c : Object := {[ "Config_ID" := ""; "Partner_ID" := "P1" ]} in
  let data := mkParsedData [activePartner] [c] [] [] in
  mobileCards (Some data) "All" = Normal [c]
  ∧ mobileView data [c] (handleCardClick (ofProp (c !! "Config_ID")) initialUI)
    = NoScreen.
Proof. vm_compute. done. Qed.

End Preview.
